(** * SSP Realty backend: the auth gate and the CRUD handlers of [src/index.ts]

    A shallow embedding of the Express application.  Every route handler is a
    function from the server state (the four MongoDB collections), the clock
    reading [Date.now()] taken while the request is served, and the request,
    to the new state and the HTTP response.

    The npm packages the handlers call are not part of the repository.  Their
    opaque parts (bcrypt's hash comparison, the JWS wire codec of
    jsonwebtoken, Mongoose's type coercions) are the fields of the class
    [Packages]; the parts of their behaviour that the handlers rely on
    (expiry arithmetic of [jwt.sign]/[jwt.verify], strict schemas, defaults,
    first-match update and delete, sorting) are written out.

    Scope: the store is reachable (the [catch] branches are entered by
    validation, comparison and update errors only) and JSON numbers are
    integers.  Objects with plain field names are handled in full; what
    Mongoose makes of the keys it interprets (a submitted [_id] or [__v],
    update operators, dotted paths) is a parameter, and a record without an
    [_id] field stands for one whose [_id] the driver generated. *)

From stdpp Require Import base option list strings pretty gmap fin_maps sorting.
From Stdlib Require Import ZArith Lia Ascii.

Set Warnings "-register-all,-clear-no-such-hyp".

Local Open Scope string_scope.
Local Open Scope Z_scope.
Local Open Scope list_scope.

(** ** JSON values and documents *)

Inductive json : Type :=
  | JNull
  | JBool (b : bool)
  | JNum (n : Z)
  | JStr (s : string)
  | JDate (ms : Z)
  | JArr (l : list json)
  | JObj (fields : list (string * json)).

(** A parsed JSON object ([req.body]) and a stored document. *)
Abbreviation Body := (gmap string json).
Abbreviation Doc := (gmap string json).

(** ** Mongoose schemas *)

Inductive SchemaType : Type :=
  | TString
  | TNumber
  | TDate
  | TArray (elem : SchemaType)
  | TNested (fields : list (string * SchemaType)).

(** [default: Date.now] is the only declared default. *)
Inductive DefaultSpec : Type :=
  | NoDefault
  | DefaultNow.

Record SchemaPath : Type := mkPath {
  path_name : string;
  path_type : SchemaType;
  path_default : DefaultSpec
}.

Abbreviation Schema := (list SchemaPath).

Definition plain (name : string) (ty : SchemaType) : SchemaPath :=
  mkPath name ty NoDefault.

Definition propertySchema : Schema :=
  [ plain "id" TString;
    plain "title" TString;
    plain "location" TString;
    plain "price" TString;
    plain "beds" TNumber;
    plain "baths" TNumber;
    plain "sqft" TNumber;
    plain "image" TString;
    plain "type" TString;
    plain "tag" TString;
    plain "description" TString;
    plain "amenities" (TArray TString);
    plain "gallery" (TArray TString);
    plain "phone" TString;
    plain "longDescription" TString;
    plain "pricingTiers"
      (TArray (TNested [("unitNumbers", TString); ("price", TString);
                        ("furnishing", TString)]));
    plain "constructionDetails"
      (TNested [("brickType", TString); ("cement", TString);
                ("steel", TString); ("electrical", TString);
                ("paints", TString)]);
    plain "furnishedItems" (TArray TString);
    plain "offers" (TArray TString);
    plain "launchDate" TString;
    plain "possessionDate" TString;
    plain "totalUnits" TNumber;
    plain "soldOut" TNumber;
    plain "booked" TNumber;
    plain "available" TNumber;
    mkPath "createdAt" TDate DefaultNow ].

Definition teamSchema : Schema :=
  [ plain "id" TString;
    plain "name" TString;
    plain "role" TString;
    plain "image" TString;
    mkPath "createdAt" TDate DefaultNow ].

Definition contactSchema : Schema :=
  [ plain "id" TString;
    plain "name" TString;
    plain "email" TString;
    plain "message" TString;
    mkPath "created_at" TDate DefaultNow ].

Definition leadSchema : Schema :=
  [ plain "id" TString;
    plain "name" TString;
    plain "email" TString;
    plain "phone" TString;
    plain "propertyType" TString;
    plain "budget" TString;
    plain "message" TString;
    mkPath "created_at" TDate DefaultNow ].

Definition schema_names (sch : Schema) : list string := path_name <$> sch.

(** ** Tokens *)

(** The claims of a token: what [jwt.sign] is given plus the registered
    claims it adds or checks, as NumericDates (seconds). *)
Record JwtPayload : Type := mkPayload {
  jp_email : string;
  jp_role : string;
  jp_iat : Z;
  jp_nbf : option Z;
  jp_exp : option Z
}.

Inductive JwtError : Type :=
  | JsonWebTokenError
  | NotBeforeError
  | TokenExpiredError.

(** ** The packages *)

Class Packages : Type := {
  (** [bcrypt.compare(password, hash)] on two strings. *)
  bcrypt_compare : string -> string -> bool;
  (** The compact JWS serialisation of a payload under a secret. *)
  jws_sign : string -> JwtPayload -> string;
  (** Parsing and signature check of a JWS; [None] is a malformed token or
      a signature that does not match. *)
  jws_open : string -> string -> option JwtPayload;
  (** Mongoose's coercion of a value that is not yet of the path's type;
      [None] is a CastError. *)
  coerce : SchemaType -> json -> option json;
  (** What the model constructor and [save()] make of the interpreted keys
      of an object (a submitted [_id] or [__v], dotted paths into nested and
      array paths), given the clock and the records of the collection: the
      values of those paths, or [None] when a cast fails or the unique index
      on [_id] rejects the record. *)
  interpreted_fields :
    list SchemaPath -> Z -> list (gmap string json) -> gmap string json ->
    option (gmap string json);
  (** What [findOneAndUpdate] makes of an update object with operators or
      dotted keys: [None] when casting the update throws, otherwise the
      update as the server applies it to the matched record, where [None] is
      the server refusing it. *)
  interpreted_update :
    list SchemaPath -> gmap string json ->
    option (gmap string json -> option (gmap string json));
  (** The reading of the clock at the second [Date.now()] of a request, given
      the reading at the first. *)
  second_reading : Z -> Z
}.

(** ** Configuration: [process.env] and the constants read from it *)

Record Env : Type := mkEnv {
  env_ADMIN_EMAIL : option string;
  env_ADMIN_PASSWORD_HASH : option string;
  env_JWT_SECRET : option string
}.

(** [process.env.X || dflt]: an unset or empty variable gives the default. *)
Definition env_or (v : option string) (dflt : string) : string :=
  match v with
  | Some s => if String.eqb s EmptyString then dflt else s
  | None => dflt
  end.

Definition ADMIN_EMAIL (e : Env) : string :=
  env_or (env_ADMIN_EMAIL e) "admin@ssprealty.com".
Definition ADMIN_PASSWORD_HASH (e : Env) : string :=
  env_or (env_ADMIN_PASSWORD_HASH e) EmptyString.
Definition JWT_SECRET (e : Env) : string :=
  env_or (env_JWT_SECRET e) "ssp-realty-jwt-secret-key-change-in-production".

(** ** Requests and responses *)

Record Request : Type := mkRequest {
  req_authorization : option string;   (* req.headers.authorization *)
  req_body : Body;
  req_admin : option JwtPayload        (* req.admin, set by the middleware *)
}.

Inductive RespBody : Type :=
  | BError (msg : string)          (* { error: msg } *)
  | BMessage (msg : string)        (* { message: msg } *)
  | BStatus (msg : string)         (* { status: msg } *)
  | BSuccess                       (* { success: true } *)
  | BSuccessToken (token : string) (* { success: true, token } *)
  | BSuccessData (d : Doc)         (* { success: true, data: d } *)
  | BDoc (d : Doc)
  | BDocs (l : list Doc).

Record Response : Type := mkResponse {
  res_status : Z;
  res_body : RespBody
}.

(** [res.json(b)] and [res.status(c).json(b)]. *)
Definition res_json (b : RespBody) : Response := mkResponse 200 b.
Definition res_status_json (c : Z) (b : RespBody) : Response := mkResponse c b.

(** ** JavaScript helpers *)

(** [s.split(sep)] for a one-character separator. *)
Fixpoint split_on (sep : Ascii.ascii) (s : string) : list string :=
  match s with
  | EmptyString => [EmptyString]
  | String c r =>
      if Ascii.eqb c sep then EmptyString :: split_on sep r
      else match split_on sep r with
           | h :: t => String c h :: t
           | [] => [String c EmptyString]
           end
  end.

(** Whether a character occurs in a string. *)
Fixpoint has_char (c : Ascii.ascii) (s : string) : bool :=
  match s with
  | EmptyString => false
  | String x r => Ascii.eqb x c || has_char c r
  end.

(** [n.toString()] of an integer. *)
Definition toString (n : Z) : string := pretty n.

(** ** jsonwebtoken *)

(** [ms("24h") / 1000]. *)
Definition expiresIn_24h : Z := 86400.

(** The clock of the token service: [Math.floor(Date.now() / 1000)]. *)
Definition clockTimestamp (now : Z) : Z := now / 1000.

Section Model.
Context {P : Packages}.

(** [jwt.sign({email, role}, secret, {expiresIn: "24h"})]. *)
Definition jwt_sign (email role secret : string) (now : Z) : string :=
  let iat := clockTimestamp now in
  jws_sign secret (mkPayload email role iat None (Some (iat + expiresIn_24h))).

(** [jwt.verify(token, secret)]: the decoded payload or the error thrown. *)
Definition jwt_verify (token secret : string) (now : Z) : JwtPayload + JwtError :=
  match jws_open secret token with
  | None => inr JsonWebTokenError
  | Some payload =>
      let notYet := match jp_nbf payload with
                    | Some nbf => clockTimestamp now <? nbf
                    | None => false
                    end in
      let expired := match jp_exp payload with
                     | Some exp => exp <=? clockTimestamp now
                     | None => false
                     end in
      if notYet then inr NotBeforeError
      else if expired then inr TokenExpiredError
      else inl payload
  end.

(** ** The JWT middleware *)

Inductive GateResult : Type :=
  | Next (admin : JwtPayload)      (* req.admin = decoded; next() *)
  | Halt (r : Response).           (* the response is sent, next() is not called *)

Definition extract_token (req : Request) : option string :=
  hdr ← req_authorization req; split_on " "%char hdr !! 1%nat.

Definition verifyToken (e : Env) (now : Z) (req : Request) : GateResult :=
  match extract_token req with
  | None | Some EmptyString =>
      Halt (res_status_json 401 (BError "No token provided"))
  | Some token =>
      match jwt_verify token (JWT_SECRET e) now with
      | inl decoded => Next decoded
      | inr _ => Halt (res_status_json 401 (BError "Invalid token"))
      end
  end.

(** ** Mongoose: documents, strict schemas, casting *)

Definition is_string (v : json) : bool :=
  match v with
  | JStr _ => true
  | _ => false
  end.

(** The cast of one value to the type of its path.  [null] and values that
    already have the type (a string, a number, an array of strings) are
    kept; everything else is coerced. *)
Definition cast (ty : SchemaType) (v : json) : option json :=
  match ty, v with
  | TString, JStr s => Some (JStr s)
  | TNumber, JNum n => Some (JNum n)
  | (TString | TNumber | TDate), JNull => Some JNull
  | TArray TString, JArr l => if forallb is_string l then Some v else coerce ty v
  | _, _ => coerce ty v
  end.

(** The keys that Mongoose does not read as a plain field name: the implicit
    paths [_id] and [__v], update operators, and dotted paths. *)
Definition interpreted_key (k : string) : bool :=
  String.eqb k "_id" || String.eqb k "__v" || has_char "." k || String.prefix "$" k.

(** An object all of whose keys are plain field names. *)
Definition plain_object (obj : Body) : bool :=
  forallb (fun kv => negb (interpreted_key kv.1)) (map_to_list obj).

Definition is_compound (ty : SchemaType) : bool :=
  match ty with
  | TArray _ | TNested _ => true
  | _ => false
  end.

(** The top-level paths that interpreted keys can write: [_id], [__v], and
    the nested and array paths of the schema (which dotted keys reach). *)
Definition interpreted_path (sch : Schema) (k : string) : bool :=
  String.eqb k "_id" || String.eqb k "__v" ||
  existsb (fun p => String.eqb (path_name p) k && is_compound (path_type p)) sch.

(** Schemas are strict (the default): only the paths of the schema are read
    from the object, every other key is dropped without an error.  A value
    that cannot be cast fails the whole operation. *)
Fixpoint castObject (sch : Schema) (obj : Body) : option Doc :=
  match sch with
  | [] => Some ∅
  | p :: rest =>
      d ← castObject rest obj;
      match obj !! path_name p with
      | Some v => v' ← cast (path_type p) v; Some (<[path_name p := v']> d)
      | None => Some d
      end
  end.

(** The default of an unset path: the declared one, and [[]] for arrays. *)
Definition default_of (now : Z) (p : SchemaPath) : option json :=
  match path_default p with
  | DefaultNow => Some (JDate now)
  | NoDefault =>
      match path_type p with
      | TArray _ => Some (JArr [])
      | _ => None
      end
  end.

Fixpoint applyDefaults (now : Z) (sch : Schema) (d : Doc) : Doc :=
  match sch with
  | [] => d
  | p :: rest =>
      let d' := applyDefaults now rest d in
      match d' !! path_name p, default_of now p with
      | None, Some v => <[path_name p := v]> d'
      | _, _ => d'
      end
  end.

(** The document that the plain field names of an object give: the cast
    fields and the defaults; [None] is a failed cast. *)
Definition plain_document (now : Z) (sch : Schema) (obj : Body) : option Doc :=
  applyDefaults now sch <$> castObject sch obj.

(** [new Model(obj)] followed by [save()] into a collection: the stored
    record, or [None] for the error that [save()] throws (a failed cast, a
    rejected [_id]).  For an object with interpreted keys, the values they
    give are written over the interpreted paths. *)
Definition new_document (now : Z) (sch : Schema) (coll : list Doc) (obj : Body)
    : option Doc :=
  d ← plain_document now sch obj;
  if plain_object obj then Some d
  else
    extra ← interpreted_fields sch now coll obj;
    Some (filter (fun kv => interpreted_path sch kv.1 = true) extra ∪ d).

(** The query [{ id: x }]. *)
Definition has_id (x : string) (d : Doc) : bool :=
  match d !! "id" with
  | Some (JStr s) => String.eqb s x
  | _ => false
  end.

(** [Model.findOne(q)]: the first match in natural order. *)
Definition findOne (q : Doc -> bool) (coll : list Doc) : option Doc :=
  List.find q coll.

(** [Model.deleteOne(q)]: removes the first match, if any. *)
Fixpoint deleteOne (q : Doc -> bool) (coll : list Doc) : list Doc :=
  match coll with
  | [] => []
  | d :: rest => if q d then rest else d :: deleteOne q rest
  end.

(** The [$set] that Mongoose sends for a plain update object. *)
Definition set_fields (u d : Doc) : Doc := u ∪ d.

(** The update that a body stands for: a plain object is a [$set] of its
    cast schema fields; [None] is the error thrown while casting. *)
Definition cast_update (sch : Schema) (body : Body) : option (Doc -> option Doc) :=
  if plain_object body then
    u ← castObject sch body; Some (fun d => Some (set_fields u d))
  else interpreted_update sch body.

(** The first match is replaced by its update; [None] is the server
    refusing the update of that record. *)
Fixpoint updateOne (q : Doc -> bool) (upd : Doc -> option Doc) (coll : list Doc)
    : option (list Doc) :=
  match coll with
  | [] => Some []
  | d :: rest =>
      if q d then d' ← upd d; Some (d' :: rest)
      else (fun rest' => d :: rest') <$> updateOne q upd rest
  end.

(** [Model.findOneAndUpdate(q, u, { new })]: the matched record (after the
    update when [new] is set) as the document handed back, with the schema
    defaults filled in where the record lacks them, and the collection
    afterwards; [None] is the server's error. *)
Definition findOneAndUpdate (now : Z) (sch : Schema) (q : Doc -> bool)
    (upd : Doc -> option Doc) (new : bool) (coll : list Doc)
    : option (option Doc * list Doc) :=
  coll' ← updateOne q upd coll;
  Some (applyDefaults now sch <$>
          (if new then findOne q coll ≫= upd else findOne q coll),
        coll').

(** The sort key of [created_at]: a date, or nothing ([null], unset). *)
Definition created_key (d : Doc) : option Z :=
  match d !! "created_at" with
  | Some (JDate ms) => Some ms
  | _ => None
  end.

(** The order of the keys: nothing sorts below every date. *)
Definition key_leb (a b : option Z) : bool :=
  match a, b with
  | None, _ => true
  | Some _, None => false
  | Some x, Some y => x <=? y
  end.

(** [d1] may come before [d2] in a [{ created_at: -1 }] sort. *)
Definition newer_first (d1 d2 : Doc) : Prop :=
  key_leb (created_key d2) (created_key d1) = true.

#[local] Instance newer_first_dec d1 d2 : Decision (newer_first d1 d2).
Proof. unfold newer_first. apply _. Defined.

(** [Model.find().sort({ created_at: -1 })]. *)
Definition sort_created_desc (coll : list Doc) : list Doc :=
  merge_sort newer_first coll.

(** ** The server state: the four collections *)

Record Store : Type := mkStore {
  properties : list Doc;
  team : list Doc;
  contacts : list Doc;
  leads : list Doc
}.

Definition set_properties (st : Store) (l : list Doc) : Store :=
  mkStore l (team st) (contacts st) (leads st).
Definition set_team (st : Store) (l : list Doc) : Store :=
  mkStore (properties st) l (contacts st) (leads st).
Definition set_contacts (st : Store) (l : list Doc) : Store :=
  mkStore (properties st) (team st) l (leads st).
Definition set_leads (st : Store) (l : list Doc) : Store :=
  mkStore (properties st) (team st) (contacts st) l.

(** ** Route handlers *)

Definition Handler : Type := Env -> Z -> Store -> Request -> Store * Response.

(** A route registered as [app.METHOD(path, verifyToken, handler)]. *)
Definition protect (h : Handler) : Handler := fun e now st req =>
  match verifyToken e now req with
  | Next decoded =>
      h e now st (mkRequest (req_authorization req) (req_body req) (Some decoded))
  | Halt r => (st, r)
  end.

(** [v !== s] is false only for the string [s] itself. *)
Definition strict_eq_string (v : option json) (s : string) : bool :=
  match v with
  | Some (JStr x) => String.eqb x s
  | _ => false
  end.

Definition post_auth_login : Handler := fun e now st req =>
  let email := req_body req !! "email" in
  let password := req_body req !! "password" in
  if negb (strict_eq_string email (ADMIN_EMAIL e)) then
    (st, res_status_json 401 (BError "Invalid email or password"))
  else if String.eqb (ADMIN_PASSWORD_HASH e) EmptyString then
    (st, res_status_json 401
           (BError "Admin password not configured. Please set ADMIN_PASSWORD_HASH in .env"))
  else
    match password with
    | Some (JStr pw) =>
        if bcrypt_compare pw (ADMIN_PASSWORD_HASH e) then
          (st, res_json (BSuccessToken
                           (jwt_sign (ADMIN_EMAIL e) "admin" (JWT_SECRET e) now)))
        else (st, res_status_json 401 (BError "Invalid email or password"))
    | _ => (st, res_status_json 500 (BError "Login failed"))
    end.

Definition get_properties : Handler := fun e now st req =>
  (st, res_json (BDocs (properties st))).

Definition post_properties : Handler := fun e now st req =>
  match new_document now propertySchema (properties st) (req_body req) with
  | Some property =>
      (set_properties st (properties st ++ [property]),
       res_json (BSuccessData property))
  | None => (st, res_status_json 500 (BError "Failed to create property"))
  end.

Definition get_property (id : string) : Handler := fun e now st req =>
  match findOne (has_id id) (properties st) with
  | Some property => (st, res_json (BDoc property))
  | None => (st, res_status_json 404 (BError "Property not found"))
  end.

Definition put_property (id : string) : Handler := fun e now st req =>
  match cast_update propertySchema (req_body req) with
  | Some upd =>
      match findOneAndUpdate now propertySchema (has_id id) upd false
              (properties st) with
      | Some (_, properties') =>
          (set_properties st properties', res_json BSuccess)
      | None => (st, res_status_json 500 (BError "Failed to update property"))
      end
  | None => (st, res_status_json 500 (BError "Failed to update property"))
  end.

Definition delete_property (id : string) : Handler := fun e now st req =>
  (set_properties st (deleteOne (has_id id) (properties st)), res_json BSuccess).

Definition get_team : Handler := fun e now st req =>
  (st, res_json (BDocs (team st))).

Definition post_team : Handler := fun e now st req =>
  match new_document now teamSchema (team st) (req_body req) with
  | Some teamMember =>
      (set_team st (team st ++ [teamMember]), res_json (BSuccessData teamMember))
  | None => (st, res_status_json 500 (BError "Failed to create team member"))
  end.

Definition put_team (id : string) : Handler := fun e now st req =>
  match cast_update teamSchema (req_body req) with
  | Some upd =>
      match findOneAndUpdate now teamSchema (has_id id) upd true (team st) with
      | Some (Some updated, team') =>
          (set_team st team', res_json (BSuccessData updated))
      | Some (None, team') =>
          (set_team st team', res_status_json 404 (BError "Team member not found"))
      | None => (st, res_status_json 500 (BError "Failed to update team member"))
      end
  | None => (st, res_status_json 500 (BError "Failed to update team member"))
  end.

Definition delete_team (id : string) : Handler := fun e now st req =>
  (set_team st (deleteOne (has_id id) (team st)), res_json BSuccess).

Definition post_contact : Handler := fun e now st req =>
  match new_document (second_reading now) contactSchema (contacts st)
          (<["id" := JStr (toString now)]> (req_body req)) with
  | Some contact =>
      (set_contacts st (contacts st ++ [contact]), res_json (BSuccessData contact))
  | None => (st, res_status_json 500 (BError "Failed to submit contact form"))
  end.

Definition get_contact : Handler := fun e now st req =>
  (st, res_json (BDocs (sort_created_desc (contacts st)))).

Definition post_leads : Handler := fun e now st req =>
  match new_document (second_reading now) leadSchema (leads st)
          (<["id" := JStr (toString now)]> (req_body req)) with
  | Some lead =>
      (set_leads st (leads st ++ [lead]), res_json (BSuccessData lead))
  | None => (st, res_status_json 500 (BError "Failed to submit lead form"))
  end.

Definition get_leads : Handler := fun e now st req =>
  (st, res_json (BDocs (sort_created_desc (leads st)))).

(** ** The routing table *)

Inductive Route : Type :=
  | GET_root
  | GET_health
  | POST_auth_login
  | GET_properties
  | POST_properties
  | GET_property (id : string)
  | PUT_property (id : string)
  | DELETE_property (id : string)
  | GET_team
  | POST_team
  | PUT_team (id : string)
  | DELETE_team (id : string)
  | POST_contact
  | GET_contact
  | POST_leads
  | GET_leads.

Definition app (r : Route) : Handler :=
  match r with
  | GET_root =>
      fun e now st req => (st, res_json (BMessage "🏠 SSP Realty Backend API v1.0"))
  | GET_health =>
      fun e now st req => (st, res_json (BStatus "✓ Backend is running"))
  | POST_auth_login => post_auth_login
  | GET_properties => get_properties
  | POST_properties => protect post_properties
  | GET_property id => get_property id
  | PUT_property id => protect (put_property id)
  | DELETE_property id => protect (delete_property id)
  | GET_team => get_team
  | POST_team => protect post_team
  | PUT_team id => protect (put_team id)
  | DELETE_team id => protect (delete_team id)
  | POST_contact => post_contact
  | GET_contact => get_contact
  | POST_leads => post_leads
  | GET_leads => protect get_leads
  end.

(** The protected routes that write to the store. *)
Definition protected_mutating (r : Route) : bool :=
  match r with
  | POST_properties | PUT_property _ | DELETE_property _
  | POST_team | PUT_team _ | DELETE_team _ => true
  | _ => false
  end.

End Model.

(** ** The collections with a create route *)

Inductive Collection : Type :=
  | CProperty
  | CTeamMember
  | CContact
  | CLead.

Definition schema_of (c : Collection) : Schema :=
  match c with
  | CProperty => propertySchema
  | CTeamMember => teamSchema
  | CContact => contactSchema
  | CLead => leadSchema
  end.

Definition collection_of (c : Collection) (st : Store) : list Doc :=
  match c with
  | CProperty => properties st
  | CTeamMember => team st
  | CContact => contacts st
  | CLead => leads st
  end.

(** The handler behind the create route of a collection (for properties and
    team members it runs after the middleware). *)
Definition create_handler {P : Packages} (c : Collection) : Handler :=
  match c with
  | CProperty => post_properties
  | CTeamMember => post_team
  | CContact => post_contact
  | CLead => post_leads
  end.


Definition public_create (c : Collection) : bool :=
  match c with
  | CContact | CLead => true
  | CProperty | CTeamMember => false
  end.

(** The object handed to [new Model(...)] by the create handler. *)
Definition create_object (c : Collection) (now : Z) (b : Body) : Body :=
  if public_create c then <["id" := JStr (toString now)]> b else b.

(** The clock reading that the defaults of a created record see: the public
    create routes have read the clock once before, for the id. *)
Definition default_reading {P : Packages} (c : Collection) (now : Z) : Z :=
  if public_create c then second_reading now else now.

(** The part of a body that lies on the paths of a schema. *)
Definition on_schema (sch : Schema) (obj : Body) : Body :=
  filter (fun kv => kv.1 ∈ schema_names sch) obj.

Definition with_body (req : Request) (b : Body) : Request :=
  mkRequest (req_authorization req) b (req_admin req).

(** ** The responses of the error taxonomy *)

Definition Rejected_NoToken : Response :=
  res_status_json 401 (BError "No token provided").
Definition Rejected_InvalidToken : Response :=
  res_status_json 401 (BError "Invalid token").
Definition Rejected_InvalidCredentials : Response :=
  res_status_json 401 (BError "Invalid email or password").
Definition Rejected_ConfigurationMissing : Response :=
  res_status_json 401
    (BError "Admin password not configured. Please set ADMIN_PASSWORD_HASH in .env").
Definition NotFound_TeamMember : Response :=
  res_status_json 404 (BError "Team member not found").

(** How many documents of a collection carry an external id. *)
Definition count_id (id : string) (coll : list Doc) : nat :=
  length (filter (fun d => has_id id d = true) coll).

(** ** The routes as registered *)

(** The handler that is the last argument of each [app.METHOD(...)] call. *)
Definition handler_of {P : Packages} (r : Route) : Handler :=
  match r with
  | GET_root =>
      fun e now st req => (st, res_json (BMessage "🏠 SSP Realty Backend API v1.0"))
  | GET_health =>
      fun e now st req => (st, res_json (BStatus "✓ Backend is running"))
  | POST_auth_login => post_auth_login
  | GET_properties => get_properties
  | POST_properties => post_properties
  | GET_property id => get_property id
  | PUT_property id => put_property id
  | DELETE_property id => delete_property id
  | GET_team => get_team
  | POST_team => post_team
  | PUT_team id => put_team id
  | DELETE_team id => delete_team id
  | POST_contact => post_contact
  | GET_contact => get_contact
  | POST_leads => post_leads
  | GET_leads => get_leads
  end.

(** The routes registered with [verifyToken] before the handler. *)
Definition uses_verifyToken (r : Route) : bool :=
  match r with
  | POST_properties | PUT_property _ | DELETE_property _
  | POST_team | PUT_team _ | DELETE_team _ | GET_leads => true
  | _ => false
  end.

(** The earlier server file: the same handler bodies registered without a
    middleware; it has no login route, no team update and no leads. *)
Definition app_earlier {P : Packages} (r : Route) : option Handler :=
  match r with
  | GET_root =>
      Some (fun e now st req =>
              (st, res_json (BMessage "🏠 SSP Realty Backend API v1.0")))
  | GET_health =>
      Some (fun e now st req => (st, res_json (BStatus "✓ Backend is running")))
  | GET_properties => Some get_properties
  | POST_properties => Some post_properties
  | GET_property id => Some (get_property id)
  | PUT_property id => Some (put_property id)
  | DELETE_property id => Some (delete_property id)
  | GET_team => Some get_team
  | POST_team => Some post_team
  | DELETE_team id => Some (delete_team id)
  | POST_contact => Some post_contact
  | GET_contact => Some get_contact
  | POST_auth_login | PUT_team _ | POST_leads | GET_leads => None
  end.

(** The collection a route works on. *)
Definition route_collection (r : Route) : option Collection :=
  match r with
  | GET_properties | POST_properties
  | GET_property _ | PUT_property _ | DELETE_property _ => Some CProperty
  | GET_team | POST_team | PUT_team _ | DELETE_team _ => Some CTeamMember
  | POST_contact | GET_contact => Some CContact
  | POST_leads | GET_leads => Some CLead
  | GET_root | GET_health | POST_auth_login => None
  end.

(** The routes whose handler issues no write. *)
Definition read_only (r : Route) : bool :=
  match r with
  | GET_root | GET_health | POST_auth_login | GET_properties | GET_property _
  | GET_team | GET_contact | GET_leads => true
  | _ => false
  end.

(** The handler behind the list route of a collection. *)
Definition list_handler {P : Packages} (c : Collection) : Handler :=
  match c with
  | CProperty => get_properties
  | CTeamMember => get_team
  | CContact => get_contact
  | CLead => get_leads
  end.

Definition error_body (b : RespBody) : bool :=
  match b with
  | BError _ => true
  | _ => false
  end.

(** The two shapes of an answer: a 200 with a result, or an error object
    with status 401, 404 or 500 and the store as it was. *)
Definition answered (st : Store) (out : Store * Response) : Prop :=
  (res_status out.2 = 200 ∧ error_body (res_body out.2) = false) ∨
  ((res_status out.2 = 401 ∨ res_status out.2 = 404 ∨ res_status out.2 = 500) ∧
   error_body (res_body out.2) = true ∧ out.1 = st).

(** ** A reference implementation of the packages

    Small executable stand-ins, used to run the handlers on concrete
    requests: a comparison against a tagged copy of the password, a codec
    that writes the secret and the payload as a bit string, a coercion that
    only turns millisecond numbers into dates, a clock that has advanced by
    two milliseconds at its second reading, and a partial treatment of the
    interpreted keys. *)

Module Ref.

Definition ref_compare (pw hash : string) : bool := String.eqb hash ("$ref$" +:+ pw).

#[local] Instance payload_eq_dec : EqDecision JwtPayload.
Proof. solve_decision. Defined.

Definition payload_to_tuple (p : JwtPayload) :=
  (jp_email p, jp_role p, jp_iat p, jp_nbf p, jp_exp p).

Definition payload_of_tuple (t : string * string * Z * option Z * option Z) :=
  let '(email, role, iat, nbf, exp) := t in mkPayload email role iat nbf exp.

#[local] Instance payload_countable : Countable JwtPayload.
Proof.
  apply (inj_countable' payload_to_tuple payload_of_tuple).
  intros []; reflexivity.
Defined.

Fixpoint pos_bits (p : positive) : string :=
  match p with
  | xH => EmptyString
  | xO q => String "0"%char (pos_bits q)
  | xI q => String "1"%char (pos_bits q)
  end.

Fixpoint bits_pos (s : string) : option positive :=
  match s with
  | EmptyString => Some xH
  | String c r =>
      q ← bits_pos r;
      if Ascii.eqb c "0"%char then Some (xO q)
      else if Ascii.eqb c "1"%char then Some (xI q)
      else None
  end.

Definition ref_sign (secret : string) (p : JwtPayload) : string :=
  String "j"%char (pos_bits (encode (secret, p))).

Definition ref_open (secret token : string) : option JwtPayload :=
  match token with
  | String c bits =>
      if Ascii.eqb c "j"%char then
        n ← bits_pos bits;
        kp ← decode n;
        if String.eqb kp.1 secret then Some kp.2 else None
      else None
  | EmptyString => None
  end.

Definition ref_coerce (ty : SchemaType) (v : json) : option json :=
  match ty, v with
  | TDate, JNum ms => Some (JDate ms)
  | _, _ => None
  end.

(** An ObjectId in its hexadecimal form: 24 hexadecimal digits. *)
Definition is_hex (c : Ascii.ascii) : bool :=
  let n := Ascii.nat_of_ascii c in
  ((48 <=? n) && (n <=? 57) || (97 <=? n) && (n <=? 102)
   || (65 <=? n) && (n <=? 70))%nat.

Fixpoint all_hex (s : string) : bool :=
  match s with
  | EmptyString => true
  | String c r => is_hex c && all_hex r
  end.

Definition is_object_id (s : string) : bool :=
  (String.length s =? 24)%nat && all_hex s.

Definition has_object_id (s : string) (d : Doc) : bool :=
  match d !! "_id" with
  | Some (JStr s') => String.eqb s s'
  | _ => false
  end.

(** A submitted [_id] must be an ObjectId that no record of the collection
    carries, a submitted [__v] a number; dotted keys and operators are
    refused by this stand-in. *)
Definition ref_interpreted_fields (sch : Schema) (now : Z) (coll : list Doc)
    (obj : Body) : option Doc :=
  if forallb (fun kv => negb (has_char "." kv.1 || String.prefix "$" kv.1))
       (map_to_list obj)
  then
    with_id ←
      match obj !! "_id" with
      | None => Some ∅
      | Some (JStr s) =>
          if is_object_id s && negb (existsb (has_object_id s) coll)
          then Some {["_id" := JStr s]} else None
      | Some _ => None
      end;
    match obj !! "__v" with
    | None => Some with_id
    | Some (JNum n) => Some (<["__v" := JNum n]> with_id)
    | Some _ => None
    end
  else None.

Definition core : Packages :=
  {| bcrypt_compare := ref_compare;
     jws_sign := ref_sign;
     jws_open := ref_open;
     coerce := ref_coerce;
     interpreted_fields := ref_interpreted_fields;
     interpreted_update := fun _ _ => None;
     second_reading := fun now => now + 2 |}.

(** The operator objects [{"$set": {...}}] and [{"$unset": {...}}] with
    plain field names; every other interpreted update is refused by this
    stand-in. *)
Definition ref_interpreted_update (sch : Schema) (body : Body)
    : option (Doc -> option Doc) :=
  match map_to_list body with
  | [(op, JObj fields)] =>
      if negb (forallb (fun kv => negb (interpreted_key kv.1)) fields) then None
      else if String.eqb op "$set" then
        u ← castObject (P := core) sch (list_to_map fields);
        Some (fun d => Some (set_fields u d))
      else if String.eqb op "$unset" then
        Some (fun d => Some (foldr (fun kv d' => delete kv.1 d') d fields))
      else None
  | _ => None
  end.

Definition packages : Packages :=
  {| bcrypt_compare := ref_compare;
     jws_sign := ref_sign;
     jws_open := ref_open;
     coerce := ref_coerce;
     interpreted_fields := ref_interpreted_fields;
     interpreted_update := ref_interpreted_update;
     second_reading := fun now => now + 2 |}.

(** A configured server, a clock reading, and an empty store. *)
Definition env : Env :=
  mkEnv (Some "admin@ssprealty.com") (Some "$ref$s3cret") (Some "k").

Definition unconfigured : Env := mkEnv None None None.

Definition t0 : Z := 1700000000123.

Definition empty_store : Store := mkStore [] [] [] [].

Definition anonymous (b : Body) : Request := mkRequest None b None.

Definition bearer (token : string) (b : Body) : Request :=
  mkRequest (Some ("Bearer " +:+ token)) b None.

Definition admin_token : string :=
  jwt_sign (P := packages) (ADMIN_EMAIL env) "admin" (JWT_SECRET env) t0.

(** Sample requests and records. *)
Definition intruder_login : Body :=
  list_to_map [("email", JStr "intruder@example.com"); ("password", JStr "guess")].

Definition admin_login : Body :=
  list_to_map [("email", JStr "admin@ssprealty.com"); ("password", JStr "s3cret")].

Definition basic_request : Request := mkRequest (Some "Basic abc") ∅ None.

Definition bob : Body :=
  list_to_map [("name", JStr "Bob"); ("email", JStr "b@x.com"); ("message", JStr "Hi")].

Definition bob_nickname : Body := <["nickname" := JStr "Bobby"]> bob.


Definition bob_stored : Doc :=
  list_to_map [("id", JStr "1700000000123"); ("name", JStr "Bob");
               ("email", JStr "b@x.com"); ("message", JStr "Hi");
               ("created_at", JDate 1700000000125)].

Definition alice : Doc :=
  list_to_map [("id", JStr "7"); ("name", JStr "Alice"); ("role", JStr "Agent")].

Definition carol : Doc :=
  list_to_map [("id", JStr "7"); ("name", JStr "Carol"); ("role", JStr "Broker")].

Definition rename : Body := list_to_map [("name", JStr "Alicia")].

(** Two team members that were created with the same external id. *)
Definition twins : Store := mkStore [] [alice; carol] [] [].

(** A store that already holds an older contact. *)
Definition ann_stored : Doc :=
  list_to_map [("id", JStr "1600000000000"); ("name", JStr "Ann");
               ("created_at", JDate 1600000000000)].

Definition one_contact : Store := mkStore [] [] [ann_stored] [].

Definition only_carol : Store := mkStore [] [carol] [] [].

(** A property as submitted and as stored, and further sample bodies. *)
Definition villa : Body :=
  list_to_map [("id", JStr "p1"); ("title", JStr "Villa"); ("beds", JNum 3)].

Definition villa_stored : Doc :=
  list_to_map [("id", JStr "p1"); ("title", JStr "Villa"); ("beds", JNum 3);
               ("amenities", JArr []); ("gallery", JArr []);
               ("pricingTiers", JArr []); ("furnishedItems", JArr []);
               ("offers", JArr []); ("createdAt", JDate 1700000000123)].

Definition one_property : Store := mkStore [villa_stored] [] [] [].

Definition retitle : Body := list_to_map [("title", JStr "Villa Two")].

Definition unknown_only : Body := list_to_map [("nickname", JStr "Al")].

Definition email_only : Body := list_to_map [("email", JStr "admin@ssprealty.com")].

Definition dave : Body :=
  list_to_map [("id", JStr "9"); ("name", JStr "Dave")].

Definition dave_stored : Doc :=
  list_to_map [("id", JStr "9"); ("name", JStr "Dave");
               ("createdAt", JDate 1700000000123)].

Definition admin_payload : JwtPayload :=
  mkPayload "admin@ssprealty.com" "admin" 1700000000 None (Some 1700086400).

(** Two members as the create route stores them, and an update that the
    property schema cannot cast. *)
Definition alice_stored : Doc := <["createdAt" := JDate 1700000000123]> alice.

Definition carol_stored : Doc := <["createdAt" := JDate 1700000000123]> carol.

Definition staff : Store := mkStore [] [alice_stored; carol_stored] [] [].

Definition bad_beds : Body := list_to_map [("beds", JStr "abc")].

End Ref.


(** * Properties *)

Section Properties.
Context {P : Packages}.

(** ** The middleware *)

Lemma verifyToken_no_token e now req :
  extract_token req = None ∨ extract_token req = Some EmptyString ->
  verifyToken e now req = Halt Rejected_NoToken.
Proof.
  unfold verifyToken. intros [-> | ->]; reflexivity.
Qed.

Lemma verifyToken_token e now req c tok :
  extract_token req = Some (String c tok) ->
  verifyToken e now req =
    match jwt_verify (String c tok) (JWT_SECRET e) now with
    | inl decoded => Next decoded
    | inr _ => Halt Rejected_InvalidToken
    end.
Proof.
  unfold verifyToken. intros ->. reflexivity.
Qed.

Lemma verifyToken_halt_401 e now req r :
  verifyToken e now req = Halt r -> res_status r = 401.
Proof.
  unfold verifyToken.
  destruct (extract_token req) as [[|c tok]|]; try (intros [= <-]; reflexivity).
  destruct (jwt_verify _ _ _); intros [= <-]; reflexivity.
Qed.

Lemma protect_halt (h : Handler) e now st req r :
  verifyToken e now req = Halt r -> protect h e now st req = (st, r).
Proof. unfold protect. intros ->. reflexivity. Qed.

Lemma protect_next (h : Handler) e now st req decoded :
  verifyToken e now req = Next decoded ->
  protect h e now st req =
    h e now st (mkRequest (req_authorization req) (req_body req) (Some decoded)).
Proof. unfold protect. intros ->. reflexivity. Qed.

Lemma extract_token_absent req :
  req_authorization req = None -> extract_token req = None.
Proof. unfold extract_token. intros ->. reflexivity. Qed.

(** ** [split] *)

Lemma split_on_no_sep sep s : has_char sep s = false -> split_on sep s = [s].
Proof.
  induction s as [|c s IH]; simpl; [reflexivity|].
  intros [Hc Hs]%orb_false_elim. rewrite Hc, (IH Hs). reflexivity.
Qed.

Lemma split_on_app sep a b :
  has_char sep a = false ->
  split_on sep (a +:+ String sep b) = a :: split_on sep b.
Proof.
  induction a as [|c a IH]; simpl.
  - intros _. rewrite Ascii.eqb_refl. reflexivity.
  - intros [Hc Ha]%orb_false_elim. rewrite Hc, (IH Ha). reflexivity.
Qed.

Lemma extract_token_scheme scheme value body adm :
  has_char " " scheme = false ->
  has_char " " value = false ->
  extract_token (mkRequest (Some (scheme +:+ " " +:+ value)) body adm) = Some value.
Proof.
  intros Hs Hv. unfold extract_token. simpl.
  change (" " +:+ value) with (String " " value).
  rewrite (split_on_app _ _ _ Hs), (split_on_no_sep _ _ Hv). reflexivity.
Qed.

(** C1: a request to a protected mutating endpoint whose authorization
    header is absent, or from which no token can be extracted, is answered
    with 401 "No token provided"; whatever handler is registered behind
    the middleware is not run, and the store is left as it was. *)
Theorem C1_missing_token_short_circuits e now st req :
  req_authorization req = None ∨
    extract_token req = None ∨ extract_token req = Some EmptyString ->
  (∀ h : Handler, protect h e now st req = (st, Rejected_NoToken)) ∧
  (∀ r, protected_mutating r = true ->
        app r e now st req = (st, Rejected_NoToken)) ∧
  res_status Rejected_NoToken = 401.
Proof.
  intros Hno.
  assert (Hgate : verifyToken e now req = Halt Rejected_NoToken).
  { apply verifyToken_no_token.
    destruct Hno as [Habs | Hno]; [left; apply extract_token_absent, Habs | exact Hno]. }
  split; [|split].
  - intros h. apply protect_halt, Hgate.
  - intros r Hr. destruct r; simpl in Hr; try discriminate; simpl;
      apply protect_halt, Hgate.
  - reflexivity.
Qed.

(** ** Login *)

Lemma post_auth_login_password e now st req pw :
  strict_eq_string (req_body req !! "email") (ADMIN_EMAIL e) = true ->
  ADMIN_PASSWORD_HASH e ≠ EmptyString ->
  req_body req !! "password" = Some (JStr pw) ->
  post_auth_login e now st req =
    (st, if bcrypt_compare pw (ADMIN_PASSWORD_HASH e)
         then res_json (BSuccessToken
                (jwt_sign (ADMIN_EMAIL e) "admin" (JWT_SECRET e) now))
         else Rejected_InvalidCredentials).
Proof.
  unfold post_auth_login. intros -> Hhash ->. cbn [negb].
  destruct (String.eqb_spec (ADMIN_PASSWORD_HASH e) EmptyString) as [Heq | _];
    [contradiction|].
  destruct (bcrypt_compare pw (ADMIN_PASSWORD_HASH e)); reflexivity.
Qed.

(** C2 (amended): the login handler first compares the submitted email with
    the configured one and answers InvalidCredentials on a mismatch, whether
    or not a hash is configured; only for the admin email does a missing
    hash give ConfigurationMissing; for the admin email and a configured
    hash, a string password is compared against the hash, a failed
    comparison gives InvalidCredentials and a successful one the success
    response carrying a freshly signed token.  The store is never touched. *)
Theorem C2_login_checks_email_first e now st req :
  let email := req_body req !! "email" in
  let password := req_body req !! "password" in
  (strict_eq_string email (ADMIN_EMAIL e) = false ->
     post_auth_login e now st req = (st, Rejected_InvalidCredentials)) ∧
  (strict_eq_string email (ADMIN_EMAIL e) = true ->
   ADMIN_PASSWORD_HASH e = EmptyString ->
     post_auth_login e now st req = (st, Rejected_ConfigurationMissing)) ∧
  (strict_eq_string email (ADMIN_EMAIL e) = true ->
   ADMIN_PASSWORD_HASH e ≠ EmptyString ->
   ∀ pw, password = Some (JStr pw) ->
     post_auth_login e now st req =
       (st, if bcrypt_compare pw (ADMIN_PASSWORD_HASH e)
            then res_json (BSuccessToken
                   (jwt_sign (ADMIN_EMAIL e) "admin" (JWT_SECRET e) now))
            else Rejected_InvalidCredentials)).
Proof.
  unfold post_auth_login. simpl. repeat split.
  - intros ->. reflexivity.
  - intros -> ->. reflexivity.
  - intros Hemail Hhash pw Hpw. apply post_auth_login_password; assumption.
Qed.

(** C3 (amended): the middleware answers NoToken exactly when the header is
    absent or has no non-empty second space-separated segment.  The scheme
    word is not looked at: for a header [scheme value] with any scheme, the
    value is handed to the token verification, so the request is let through
    when the value verifies and answered InvalidToken when it does not. *)
Theorem C3_no_token_iff_no_second_segment e now req :
  (verifyToken e now req = Halt Rejected_NoToken
     ↔ extract_token req = None ∨ extract_token req = Some EmptyString) ∧
  (req_authorization req = None -> extract_token req = None) ∧
  (∀ scheme value,
     has_char " " scheme = false -> has_char " " value = false -> value ≠ EmptyString ->
     req_authorization req = Some (scheme +:+ " " +:+ value) ->
     verifyToken e now req =
       match jwt_verify value (JWT_SECRET e) now with
       | inl decoded => Next decoded
       | inr _ => Halt Rejected_InvalidToken
       end).
Proof.
  split; [|split].
  - split; [|apply verifyToken_no_token].
    destruct (extract_token req) as [[|c tok]|] eqn:Htok; auto.
    rewrite (verifyToken_token _ _ _ _ _ Htok).
    destruct (jwt_verify _ _ _); discriminate.
  - apply extract_token_absent.
  - intros scheme value Hs Hv Hne Hhdr.
    destruct req as [hdr body adm]. simpl in Hhdr. subst hdr.
    pose proof (extract_token_scheme scheme value body adm Hs Hv) as Htok.
    destruct value as [|c tok]; [contradiction|].
    apply verifyToken_token, Htok.
Qed.

(** ** Strict schemas, casting and defaults *)

(** Membership in a list that is written out. *)
Ltac in_list :=
  repeat first [apply list_elem_of_here | apply list_elem_of_further].

Lemma schema_NoDup c : NoDup (schema_names (schema_of c)).
Proof. destruct c; apply (bool_decide_unpack _); vm_compute; reflexivity. Qed.

Lemma castObject_agree sch (obj1 obj2 : Body) :
  (∀ p, p ∈ sch -> obj1 !! path_name p = obj2 !! path_name p) ->
  castObject sch obj1 = castObject sch obj2.
Proof.
  induction sch as [|p rest IH]; intros Hagree; simpl; [reflexivity|].
  rewrite IH, (Hagree p) by (intros; try apply Hagree; set_solver).
  reflexivity.
Qed.

Lemma castObject_lookup_out sch (obj : Body) (d : Doc) k :
  castObject sch obj = Some d -> k ∉ schema_names sch -> d !! k = None.
Proof.
  revert d. induction sch as [|p rest IH]; simpl; intros d Hd Hk.
  - injection Hd as <-. apply lookup_empty.
  - apply not_elem_of_cons in Hk as [Hne Hk].
    destruct (castObject rest obj) as [d0|] eqn:Hrest; [|discriminate].
    simpl in Hd. specialize (IH d0 eq_refl Hk).
    destruct (obj !! path_name p) as [v|]; [|congruence].
    destruct (cast (path_type p) v) as [v'|]; [|discriminate].
    injection Hd as <-. rewrite lookup_insert_ne; auto.
Qed.

Lemma castObject_lookup_in sch (obj : Body) (d : Doc) p :
  NoDup (schema_names sch) -> castObject sch obj = Some d -> p ∈ sch ->
  match obj !! path_name p with
  | Some v => ∃ v', cast (path_type p) v = Some v' ∧ d !! path_name p = Some v'
  | None => d !! path_name p = None
  end.
Proof.
  revert d. induction sch as [|q rest IH]; simpl; intros d Hnd Hd Hp.
  { inversion Hp. }
  apply NoDup_cons in Hnd as [Hq Hnd].
  destruct (castObject rest obj) as [d0|] eqn:Hrest; [|discriminate].
  simpl in Hd. apply elem_of_cons in Hp as [-> | Hp].
  - pose proof (castObject_lookup_out _ _ _ _ Hrest Hq) as Hout.
    destruct (obj !! path_name q) as [v|]; [|congruence].
    destruct (cast (path_type q) v) as [v'|]; [|discriminate].
    injection Hd as <-. exists v'. split; [reflexivity|apply lookup_insert_eq].
  - assert (path_name q ≠ path_name p) as Hne.
    { intros Heq. apply Hq. rewrite Heq. apply list_elem_of_fmap. eauto. }
    specialize (IH d0 Hnd eq_refl Hp).
    destruct (obj !! path_name q) as [w|].
    + destruct (cast (path_type q) w) as [w'|]; [|discriminate].
      injection Hd as <-. rewrite lookup_insert_ne by exact Hne. exact IH.
    + injection Hd as <-. exact IH.
Qed.

Lemma applyDefaults_lookup_Some now sch (d : Doc) k v :
  d !! k = Some v -> applyDefaults now sch d !! k = Some v.
Proof.
  intros Hk. induction sch as [|p rest IH]; simpl; [exact Hk|].
  destruct (applyDefaults now rest d !! path_name p) eqn:Hp; [exact IH|].
  destruct (default_of now p); [|exact IH].
  rewrite lookup_insert_ne; [exact IH|]. intros Heq. rewrite Heq in Hp. congruence.
Qed.

Lemma applyDefaults_lookup_out now sch (d : Doc) k :
  k ∉ schema_names sch -> applyDefaults now sch d !! k = d !! k.
Proof.
  induction sch as [|p rest IH]; simpl; intros Hk; [reflexivity|].
  apply not_elem_of_cons in Hk as [Hne Hk]. specialize (IH Hk).
  destruct (applyDefaults now rest d !! path_name p); [exact IH|].
  destruct (default_of now p); [|exact IH].
  rewrite lookup_insert_ne; auto.
Qed.

Lemma applyDefaults_default now sch (d : Doc) p :
  NoDup (schema_names sch) -> p ∈ sch -> d !! path_name p = None ->
  applyDefaults now sch d !! path_name p = default_of now p.
Proof.
  induction sch as [|q rest IH]; simpl; intros Hnd Hp Hd.
  { inversion Hp. }
  apply NoDup_cons in Hnd as [Hq Hnd]. apply elem_of_cons in Hp as [-> | Hp].
  - rewrite (applyDefaults_lookup_out _ _ _ _ Hq), Hd.
    destruct (default_of now q).
    + apply lookup_insert_eq.
    + rewrite (applyDefaults_lookup_out _ _ _ _ Hq). exact Hd.
  - assert (path_name q ≠ path_name p) as Hne.
    { intros Heq. apply Hq. rewrite Heq. apply list_elem_of_fmap. eauto. }
    specialize (IH Hnd Hp Hd).
    destruct (applyDefaults now rest d !! path_name q); [exact IH|].
    destruct (default_of now q); [|exact IH].
    rewrite lookup_insert_ne by exact Hne. exact IH.
Qed.

Lemma plain_document_agree now sch (obj1 obj2 : Body) :
  (∀ p, p ∈ sch -> obj1 !! path_name p = obj2 !! path_name p) ->
  plain_document now sch obj1 = plain_document now sch obj2.
Proof.
  intros Hagree. unfold plain_document.
  rewrite (castObject_agree _ _ _ Hagree). reflexivity.
Qed.

Lemma plain_document_lookup_out now sch (obj : Body) (d : Doc) k :
  plain_document now sch obj = Some d -> k ∉ schema_names sch -> d !! k = None.
Proof.
  unfold plain_document. intros Hd Hk.
  destruct (castObject sch obj) as [d0|] eqn:Hcast; [|discriminate].
  injection Hd as <-. rewrite (applyDefaults_lookup_out _ _ _ _ Hk).
  eapply castObject_lookup_out; eauto.
Qed.

Lemma plain_document_lookup_in now sch (obj : Body) (d : Doc) p v :
  NoDup (schema_names sch) -> plain_document now sch obj = Some d -> p ∈ sch ->
  obj !! path_name p = Some v ->
  ∃ v', cast (path_type p) v = Some v' ∧ d !! path_name p = Some v'.
Proof.
  unfold plain_document. intros Hnd Hd Hp Hv.
  destruct (castObject sch obj) as [d0|] eqn:Hcast; [|discriminate].
  injection Hd as <-.
  pose proof (castObject_lookup_in _ _ _ _ Hnd Hcast Hp) as Hin.
  rewrite Hv in Hin. destruct Hin as (v' & Hc & Hl).
  exists v'. split; [exact Hc|]. apply applyDefaults_lookup_Some, Hl.
Qed.

Lemma plain_document_default now sch (obj : Body) (d : Doc) p :
  NoDup (schema_names sch) -> plain_document now sch obj = Some d -> p ∈ sch ->
  obj !! path_name p = None -> d !! path_name p = default_of now p.
Proof.
  unfold plain_document. intros Hnd Hd Hp Hv.
  destruct (castObject sch obj) as [d0|] eqn:Hcast; [|discriminate].
  injection Hd as <-.
  pose proof (castObject_lookup_in _ _ _ _ Hnd Hcast Hp) as Hin.
  rewrite Hv in Hin. apply applyDefaults_default; assumption.
Qed.

Lemma on_schema_lookup sch (obj : Body) p :
  p ∈ sch -> on_schema sch obj !! path_name p = obj !! path_name p.
Proof.
  intros Hp. unfold on_schema. rewrite map_lookup_filter.
  destruct (obj !! path_name p) as [v|]; simpl; [|reflexivity].
  apply option_guard_True. simpl. apply list_elem_of_fmap. eauto.
Qed.

(** ** Objects with plain and with interpreted keys *)

Lemma plain_object_spec (obj : Body) :
  plain_object obj = true ↔
  ∀ k v, obj !! k = Some v -> interpreted_key k = false.
Proof.
  unfold plain_object. rewrite forallb_forall. split.
  - intros Hall k v Hk. apply elem_of_map_to_list, list_elem_of_In in Hk.
    specialize (Hall _ Hk). apply negb_true_iff in Hall. exact Hall.
  - intros Hall [k v] Hk%list_elem_of_In%elem_of_map_to_list.
    apply negb_true_iff. exact (Hall k v Hk).
Qed.

Lemma plain_object_insert_id (obj : Body) v :
  plain_object obj = true -> plain_object (<["id" := v]> obj) = true.
Proof.
  rewrite !plain_object_spec. intros Hall k w Hk.
  destruct (decide (k = "id")) as [-> | Hne]; [reflexivity|].
  rewrite lookup_insert_ne in Hk by auto. exact (Hall k w Hk).
Qed.

Lemma plain_object_on_schema sch (obj : Body) :
  plain_object obj = true -> plain_object (on_schema sch obj) = true.
Proof.
  rewrite !plain_object_spec. intros Hall k w Hk.
  unfold on_schema in Hk. apply map_lookup_filter_Some in Hk as [Hk _].
  exact (Hall k w Hk).
Qed.

Lemma create_object_plain c now (obj : Body) :
  plain_object obj = true -> plain_object (create_object c now obj) = true.
Proof.
  intros Hp. unfold create_object.
  destruct (public_create c); [apply plain_object_insert_id|]; exact Hp.
Qed.

Lemma new_document_plain now sch coll (obj : Body) :
  plain_object obj = true ->
  new_document now sch coll obj = plain_document now sch obj.
Proof.
  intros Hp. unfold new_document.
  destruct (plain_document now sch obj); cbn [mbind option_bind]; [|reflexivity].
  rewrite Hp. reflexivity.
Qed.

Lemma new_document_Some now sch coll (obj : Body) (d : Doc) :
  new_document now sch coll obj = Some d ->
  ∃ d0, plain_document now sch obj = Some d0 ∧
        (plain_object obj = true -> d = d0) ∧
        (∀ k, interpreted_path sch k = false -> d !! k = d0 !! k).
Proof.
  unfold new_document.
  destruct (plain_document now sch obj) as [d0|]; cbn [mbind option_bind];
    [|discriminate].
  destruct (plain_object obj).
  - intros [= <-]. exists d0. auto.
  - destruct (interpreted_fields sch now coll obj) as [extra|];
      cbn [mbind option_bind]; [|discriminate].
    intros [= <-]. exists d0. split; [reflexivity|]. split; [discriminate|].
    intros k Hk. apply lookup_union_r, map_lookup_filter_None. right.
    intros x _ Hpath. cbn [fst] in Hpath. congruence.
Qed.

Lemma id_not_interpreted c : interpreted_path (schema_of c) "id" = false.
Proof. destruct c; vm_compute; reflexivity. Qed.

Lemma create_handler_unfold c e now st req :
  create_handler c e now st req =
    match new_document (default_reading c now) (schema_of c) (collection_of c st)
            (create_object c now (req_body req)) with
    | Some d =>
        (match c with
         | CProperty => set_properties st (properties st ++ [d])
         | CTeamMember => set_team st (team st ++ [d])
         | CContact => set_contacts st (contacts st ++ [d])
         | CLead => set_leads st (leads st ++ [d])
         end, res_json (BSuccessData d))
    | None =>
        (st, res_status_json 500
               (BError match c with
                       | CProperty => "Failed to create property"
                       | CTeamMember => "Failed to create team member"
                       | CContact => "Failed to submit contact form"
                       | CLead => "Failed to submit lead form"
                       end))
    end.
Proof.
  destruct c;
    cbv [create_handler post_properties post_team post_contact post_leads
         create_object public_create schema_of default_reading collection_of];
    reflexivity.
Qed.

Lemma create_handler_success c e now st req st' d :
  create_handler c e now st req = (st', res_json (BSuccessData d)) ->
  new_document (default_reading c now) (schema_of c) (collection_of c st)
    (create_object c now (req_body req)) = Some d ∧
  collection_of c st' = collection_of c st ++ [d].
Proof.
  rewrite create_handler_unfold.
  destruct (new_document _ _ _ _) as [d0|]; [|discriminate].
  intros [= <- <-]. split; [reflexivity|]. destruct c; reflexivity.
Qed.

Lemma create_handler_plain c e now st req st' d :
  plain_object (req_body req) = true ->
  create_handler c e now st req = (st', res_json (BSuccessData d)) ->
  plain_document (default_reading c now) (schema_of c)
    (create_object c now (req_body req)) = Some d ∧
  collection_of c st' = collection_of c st ++ [d].
Proof.
  intros Hp [Hnew Hcoll]%create_handler_success. split; [|exact Hcoll].
  rewrite new_document_plain in Hnew by apply create_object_plain, Hp.
  exact Hnew.
Qed.

(** C4 (amended): for a body with plain field names, the fields outside
    the collection's schema are tolerated by every create handler but not
    persisted.  The handler answers the body exactly as it answers the body
    restricted to the schema paths; a stored (and returned) record has no
    field outside the schema; a submitted schema field is stored as its cast
    value; and the cast leaves a string on a String path, a number on a
    Number path and an array of strings on a [String] path unchanged. *)
Theorem C4_create_keeps_schema_paths_only c e now st req :
  plain_object (req_body req) = true ->
  create_handler c e now st req =
    create_handler c e now st
      (with_body req (on_schema (schema_of c) (req_body req))) ∧
  (∀ st' d,
     create_handler c e now st req = (st', res_json (BSuccessData d)) ->
     collection_of c st' = collection_of c st ++ [d] ∧
     (∀ k, k ∉ schema_names (schema_of c) -> d !! k = None) ∧
     (∀ p v, p ∈ schema_of c ->
             public_create c = false ∨ path_name p ≠ "id" ->
             req_body req !! path_name p = Some v ->
             ∃ v', cast (path_type p) v = Some v' ∧ d !! path_name p = Some v')) ∧
  (∀ s, cast TString (JStr s) = Some (JStr s)) ∧
  (∀ n, cast TNumber (JNum n) = Some (JNum n)) ∧
  (∀ l, forallb is_string l = true ->
        cast (TArray TString) (JArr l) = Some (JArr l)).
Proof.
  intros Hplain.
  split; [|split; [|split; [reflexivity|split; [reflexivity|]]]].
  - rewrite !create_handler_unfold. cbn [req_body with_body].
    rewrite !new_document_plain
      by (apply create_object_plain; try apply plain_object_on_schema; exact Hplain).
    erewrite (plain_document_agree _ (schema_of c)); [reflexivity|].
    intros p Hp. unfold create_object. destruct (public_create c).
    + destruct (decide (path_name p = "id")) as [-> | Hne].
      * rewrite !lookup_insert_eq. reflexivity.
      * rewrite !lookup_insert_ne by auto. symmetry. apply on_schema_lookup, Hp.
    + symmetry. apply on_schema_lookup, Hp.
  - intros st' d [Hd Hcoll]%(create_handler_plain _ _ _ _ _ _ _ Hplain).
    split; [exact Hcoll|]. split.
    + intros k Hk. eapply plain_document_lookup_out; eauto.
    + intros p v Hp Hid Hv.
      eapply plain_document_lookup_in; eauto using schema_NoDup.
      unfold create_object.
      destruct (public_create c); [|exact Hv].
      destruct Hid as [? | Hne]; [discriminate|].
      rewrite lookup_insert_ne by auto. exact Hv.
  - intros l Hl. cbn [cast]. rewrite Hl. reflexivity.
Qed.

Lemma castObject_is_Some sch (obj : Body) :
  (∀ p v, p ∈ sch -> obj !! path_name p = Some v ->
          is_Some (cast (path_type p) v)) ->
  is_Some (castObject sch obj).
Proof.
  induction sch as [|p rest IH]; simpl; intros Hcast; [eauto|].
  destruct IH as [d0 ->]; [intros; eapply Hcast; eauto; set_solver|]. simpl.
  destruct (obj !! path_name p) as [v|] eqn:Hv; [|eauto].
  destruct (Hcast p v) as [v' ->]; [set_solver|exact Hv|]. simpl. eauto.
Qed.


Lemma id_path_in_schema c : plain "id" TString ∈ schema_of c.
Proof. destruct c; apply list_elem_of_here. Qed.



(** ** Sorting by creation time *)

Lemma key_leb_refl a : key_leb a a = true.
Proof. destruct a; simpl; [apply Z.leb_refl|reflexivity]. Qed.

Lemma key_leb_trans a b c :
  key_leb a b = true -> key_leb b c = true -> key_leb a c = true.
Proof.
  destruct a, b, c; simpl; try (intros; reflexivity || discriminate).
  rewrite !Z.leb_le. lia.
Qed.

Lemma key_leb_total a b : key_leb a b = true ∨ key_leb b a = true.
Proof.
  destruct a, b; simpl; auto. rewrite !Z.leb_le. lia.
Qed.

#[local] Instance newer_first_trans : Transitive newer_first.
Proof. intros x y z Hxy Hyz. unfold newer_first in *. eapply key_leb_trans; eauto. Qed.

#[local] Instance newer_first_total : Total newer_first.
Proof. intros x y. unfold newer_first. apply key_leb_total. Qed.

Lemma sort_created_desc_spec coll :
  sort_created_desc coll ≡ₚ coll ∧ StronglySorted newer_first (sort_created_desc coll).
Proof.
  split; [apply merge_sort_Permutation|apply StronglySorted_merge_sort; apply _].
Qed.

Lemma sort_created_desc_newest coll d :
  (∀ c, c ∈ coll -> key_leb (created_key d) (created_key c) = false) ->
  ∃ older, sort_created_desc (coll ++ [d]) = d :: older ∧ older ≡ₚ coll.
Proof.
  intros Hnew.
  destruct (sort_created_desc_spec (coll ++ [d])) as [Hperm Hsorted].
  destruct (sort_created_desc (coll ++ [d])) as [|x rest] eqn:Hsort.
  { apply Permutation_nil_l in Hperm. destruct coll; discriminate. }
  assert (x = d) as ->.
  { assert (x ∈ coll ++ [d]) as Hx by (rewrite <- Hperm; left).
    apply elem_of_app in Hx as [Hx | Hx]; [|apply list_elem_of_singleton, Hx].
    assert (d ∈ x :: rest) as Hd by (rewrite Hperm; set_solver).
    apply elem_of_cons in Hd as [-> | Hd]; [reflexivity|].
    apply StronglySorted_inv in Hsorted as [_ Hall].
    rewrite Forall_forall in Hall. specialize (Hall d Hd).
    unfold newer_first in Hall. rewrite (Hnew x Hx) in Hall. discriminate. }
  exists rest. split; [reflexivity|].
  apply (Permutation_cons_inv (a := d)). rewrite Hperm.
  symmetry. apply Permutation_cons_append.
Qed.

(** ** [toString] *)

Lemma pretty_N_go_nonempty x s : s ≠ EmptyString -> pretty_N_go x s ≠ EmptyString.
Proof.
  revert s. induction (N.lt_wf_0 x) as [x _ IH]; intros s Hs.
  destruct (decide (x = 0%N)) as [-> | Hx]; [exact Hs|].
  rewrite pretty_N_go_step by lia.
  apply IH; [apply N.div_lt; lia|discriminate].
Qed.

Lemma toString_nonempty n : toString n ≠ EmptyString.
Proof.
  unfold toString, pretty, pretty_Z.
  assert (Hpos : ∀ p : positive, pretty p ≠ EmptyString).
  { intros p. unfold pretty, pretty_positive, pretty, pretty_N.
    destruct (decide (N.pos p = 0%N)); [discriminate|].
    rewrite pretty_N_go_step by lia. apply pretty_N_go_nonempty. discriminate. }
  destruct n as [|p|p]; [discriminate|apply Hpos|].
  destruct (pretty p) eqn:Hp; [destruct (Hpos p Hp)|discriminate].
Qed.

(** C8: a contact form with plain field names, whose name, email and
    message (where present) are strings and that sets no [created_at], is
    accepted without any authorization.  The answer is the success response
    with the stored record: the submitted fields; an [id] that is the decimal
    string of the clock reading taken by the handler, which is not empty and
    from which the reading can be told; and as [created_at] the clock reading
    taken when the record is built.  A later list request returns that record
    first when every other contact is older. *)
Theorem C8_contact_submission e now st req :
  plain_object (req_body req) = true ->
  (∀ k v, k ∈ ["name"; "email"; "message"] ->
          req_body req !! k = Some v -> ∃ s, v = JStr s) ->
  req_body req !! "created_at" = None ->
  ∃ d,
    app POST_contact e now st req =
      (set_contacts st (contacts st ++ [d]), res_json (BSuccessData d)) ∧
    (∀ k, k ∈ ["name"; "email"; "message"] -> d !! k = req_body req !! k) ∧
    d !! "id" = Some (JStr (toString now)) ∧
    toString now ≠ EmptyString ∧
    (∀ now', toString now' = toString now -> now' = now) ∧
    d !! "created_at" = Some (JDate (second_reading now)) ∧
    (∀ e' now' req',
       (∀ c, c ∈ contacts st ->
             key_leb (Some (second_reading now)) (created_key c) = false) ->
       ∃ older,
         app GET_contact e' now' (set_contacts st (contacts st ++ [d])) req' =
           (set_contacts st (contacts st ++ [d]), res_json (BDocs (d :: older))) ∧
         older ≡ₚ contacts st).
Proof.
  intros Hplain Hstr Hcreated.
  set (obj := <["id" := JStr (toString now)]> (req_body req)).
  set (later := second_reading now).
  assert (Hfield : ∀ k, k ∈ ["name"; "email"; "message"] ->
                        obj !! k = req_body req !! k).
  { intros k Hk. unfold obj. apply lookup_insert_ne.
    intros <-. set_solver. }
  assert (Hsome : is_Some (plain_document later contactSchema obj)).
  { unfold plain_document. apply fmap_is_Some, castObject_is_Some.
    intros p v Hp Hv. unfold contactSchema in Hp.
    repeat (apply elem_of_cons in Hp as [-> | Hp]); simpl in *.
    - unfold obj in Hv. rewrite lookup_insert_eq in Hv. injection Hv as <-. eauto.
    - rewrite Hfield in Hv by in_list.
      destruct (Hstr "name" v ltac:(in_list) Hv) as [s ->]. eauto.
    - rewrite Hfield in Hv by in_list.
      destruct (Hstr "email" v ltac:(in_list) Hv) as [s ->]. eauto.
    - rewrite Hfield in Hv by in_list.
      destruct (Hstr "message" v ltac:(in_list) Hv) as [s ->]. eauto.
    - unfold obj in Hv. rewrite lookup_insert_ne in Hv by discriminate. congruence.
    - inversion Hp. }
  destruct Hsome as [d Hd]. exists d.
  assert (Hnew : new_document later contactSchema (contacts st) obj = Some d).
  { rewrite new_document_plain; [exact Hd|].
    apply plain_object_insert_id, Hplain. }
  assert (Hnd := schema_NoDup CContact). simpl in Hnd.
  assert (Hdate : d !! "created_at" = Some (JDate later)).
  { apply (plain_document_default later contactSchema obj d
             (mkPath "created_at" TDate DefaultNow) Hnd Hd); [set_solver|].
    unfold obj. simpl. rewrite lookup_insert_ne by discriminate. exact Hcreated. }
  split; [|split; [|split; [|split; [apply toString_nonempty|split;
    [|split; [exact Hdate|]]]]]].
  - change (app POST_contact) with post_contact. unfold post_contact.
    fold obj. fold later. rewrite Hnew. reflexivity.
  - intros k Hk. rewrite <- (Hfield k Hk).
    assert (Hp : plain k TString ∈ contactSchema) by set_solver.
    destruct (obj !! k) as [v|] eqn:Hv.
    + pose proof Hv as Hv'. rewrite (Hfield k Hk) in Hv'.
      destruct (Hstr k v Hk Hv') as [s ->].
      destruct (plain_document_lookup_in later contactSchema obj d (plain k TString)
                  (JStr s) Hnd Hd Hp Hv) as (v' & [= <-] & Hl).
      exact Hl.
    + apply (plain_document_default later contactSchema obj d (plain k TString)
               Hnd Hd Hp Hv).
  - destruct (plain_document_lookup_in later contactSchema obj d (plain "id" TString)
                (JStr (toString now)) Hnd Hd ltac:(set_solver))
      as (v' & [= <-] & Hl); [apply lookup_insert_eq|exact Hl].
  - intros now' Heq. unfold toString in Heq. exact (inj pretty _ _ Heq).
  - intros e' now' req' Hnewest.
    change (app GET_contact) with get_contact. unfold get_contact.
    cbn [contacts set_contacts].
    destruct (sort_created_desc_newest (contacts st) d) as (older & -> & Hperm).
    + intros c Hc. unfold created_key at 1. rewrite Hdate. apply Hnewest, Hc.
    + exists older. split; [reflexivity|exact Hperm].
Qed.

(** ** Update and delete by external id *)

Lemma set_team_same st : set_team st (team st) = st.
Proof. destruct st; reflexivity. Qed.

Lemma set_properties_same st : set_properties st (properties st) = st.
Proof. destruct st; reflexivity. Qed.

Lemma updateOne_no_match q upd coll :
  findOne q coll = None -> updateOne q upd coll = Some coll.
Proof.
  unfold findOne. induction coll as [|d rest IH]; simpl; [reflexivity|].
  destruct (q d); [discriminate|]. intros Hnone. rewrite (IH Hnone). reflexivity.
Qed.

(** ** First match in natural order *)

Lemma count_id_zero id coll :
  count_id id coll = 0%nat ↔ findOne (has_id id) coll = None.
Proof.
  unfold count_id, findOne. induction coll as [|d rest IH]; [done|].
  rewrite filter_cons. cbn [List.find].
  destruct (decide (has_id id d = true)) as [Ht | Hf].
  - rewrite Ht. split; discriminate.
  - apply not_true_is_false in Hf. rewrite Hf. exact IH.
Qed.

Lemma count_id_app id l1 l2 :
  count_id id (l1 ++ l2) = (count_id id l1 + count_id id l2)%nat.
Proof. unfold count_id. rewrite filter_app, length_app. reflexivity. Qed.

Lemma count_id_singleton id d :
  count_id id [d] = if has_id id d then 1%nat else 0%nat.
Proof.
  unfold count_id. rewrite filter_cons, filter_nil.
  destruct (decide (has_id id d = true)) as [-> | Hf]; [reflexivity|].
  apply not_true_is_false in Hf. rewrite Hf. reflexivity.
Qed.

Lemma findOne_split id coll :
  count_id id coll ≠ 0%nat ->
  ∃ before d after,
    coll = before ++ d :: after ∧ count_id id before = 0%nat ∧
    has_id id d = true ∧ findOne (has_id id) coll = Some d.
Proof.
  induction coll as [|x rest IH]; [intros []; reflexivity|].
  intros Hc. destruct (has_id id x) eqn:Hx.
  - exists [], x, rest. repeat split; [exact Hx|]. unfold findOne. simpl.
    rewrite Hx. reflexivity.
  - destruct IH as (before & d & after & -> & Hb & Hd & Hfind).
    { intros Hz. apply Hc. change (x :: rest) with ([x] ++ rest).
      rewrite count_id_app, count_id_singleton, Hx, Hz. reflexivity. }
    exists (x :: before), d, after. split; [reflexivity|]. split.
    + change (x :: before) with ([x] ++ before).
      rewrite count_id_app, count_id_singleton, Hx, Hb. reflexivity.
    + split; [exact Hd|]. unfold findOne in *. simpl. rewrite Hx. exact Hfind.
Qed.

Lemma findOne_before id before d after :
  count_id id before = 0%nat -> has_id id d = true ->
  findOne (has_id id) (before ++ d :: after) = Some d.
Proof.
  intros Hb%count_id_zero Hd. unfold findOne in *.
  induction before as [|x before IH]; simpl in *; [rewrite Hd; reflexivity|].
  destruct (has_id id x); [discriminate|]. apply IH, Hb.
Qed.

Lemma deleteOne_before id before d after :
  count_id id before = 0%nat -> has_id id d = true ->
  deleteOne (has_id id) (before ++ d :: after) = before ++ after.
Proof.
  intros Hb%count_id_zero Hd. unfold findOne in *.
  induction before as [|x before IH]; simpl in *; [rewrite Hd; reflexivity|].
  destruct (has_id id x); [discriminate|]. rewrite (IH Hb). reflexivity.
Qed.

Lemma updateOne_before id upd before d d' after :
  count_id id before = 0%nat -> has_id id d = true -> upd d = Some d' ->
  updateOne (has_id id) upd (before ++ d :: after) = Some (before ++ d' :: after).
Proof.
  intros Hb%count_id_zero Hd Hupd. unfold findOne in *.
  induction before as [|x before IH]; simpl in *.
  - rewrite Hd, Hupd. reflexivity.
  - destruct (has_id id x); [discriminate|]. rewrite (IH Hb). reflexivity.
Qed.

Lemma findOneAndUpdate_no_match now sch id upd new coll :
  count_id id coll = 0%nat ->
  findOneAndUpdate now sch (has_id id) upd new coll = Some (None, coll).
Proof.
  intros Hz%count_id_zero. unfold findOneAndUpdate.
  rewrite (updateOne_no_match _ _ _ Hz), Hz. destruct new; reflexivity.
Qed.

Lemma findOneAndUpdate_before now sch id upd new before d d' after :
  count_id id before = 0%nat -> has_id id d = true -> upd d = Some d' ->
  findOneAndUpdate now sch (has_id id) upd new (before ++ d :: after) =
    Some (Some (applyDefaults now sch (if new then d' else d)),
          before ++ d' :: after).
Proof.
  intros Hb Hd Hupd. unfold findOneAndUpdate.
  rewrite (updateOne_before _ _ _ _ _ _ Hb Hd Hupd), (findOne_before _ _ _ _ Hb Hd).
  destruct new; cbn [mbind option_bind fmap option_fmap option_map];
    rewrite ?Hupd; reflexivity.
Qed.

Lemma findOneAndUpdate_refused now sch id upd new before d after :
  count_id id before = 0%nat -> has_id id d = true -> upd d = None ->
  findOneAndUpdate now sch (has_id id) upd new (before ++ d :: after) = None.
Proof.
  intros Hb%count_id_zero Hd Hupd. unfold findOneAndUpdate, findOne in *.
  assert (Hnone : updateOne (has_id id) upd (before ++ d :: after) = None).
  { induction before as [|x before IH]; simpl in *.
    - rewrite Hd, Hupd. reflexivity.
    - destruct (has_id id x); [discriminate|]. rewrite (IH Hb). reflexivity. }
  rewrite Hnone. reflexivity.
Qed.

Lemma cast_update_plain sch (body : Body) :
  plain_object body = true ->
  cast_update sch body =
    (fun u d => Some (set_fields u d)) <$> castObject sch body.
Proof.
  intros Hp. unfold cast_update. rewrite Hp.
  destruct (castObject sch body); reflexivity.
Qed.

Lemma set_fields_lookup (u d : Doc) k :
  set_fields u d !! k = match u !! k with Some v => Some v | None => d !! k end.
Proof.
  unfold set_fields. destruct (u !! k) as [v|] eqn:Hu.
  - apply lookup_union_Some_l, Hu.
  - apply lookup_union_r, Hu.
Qed.

Lemma castObject_lookup sch (obj : Body) (u : Doc) p :
  NoDup (schema_names sch) -> castObject sch obj = Some u -> p ∈ sch ->
  u !! path_name p = obj !! path_name p ≫= cast (path_type p).
Proof.
  intros Hnd Hu Hp. pose proof (castObject_lookup_in _ _ _ _ Hnd Hu Hp) as Hin.
  destruct (obj !! path_name p) as [v|]; simpl.
  - destruct Hin as (v' & -> & ->). reflexivity.
  - exact Hin.
Qed.

(** C5 (amended): behind the middleware, an update with plain field names
    is answered as follows.  When the schema cannot cast a submitted field,
    both routes answer 500 and keep the store.  Otherwise, with [u] the cast
    values of the submitted schema fields (and nothing else): on properties
    the answer is [{success: true}] for every store, the store is kept when
    no property has the id, and the first property with the id is replaced by
    the record that takes the fields of [u] and keeps its other fields; on
    team members the answer is 404 "Team member not found" with the store
    kept when no member has the id, and otherwise the first member with the
    id is replaced in the same way and the answer carries the replaced
    record with the schema defaults filled in. *)
Theorem C5_update_by_id e now st req id adm :
  verifyToken e now req = Next adm ->
  plain_object (req_body req) = true ->
  match castObject propertySchema (req_body req) with
  | Some u =>
      (app (PUT_property id) e now st req).2 = res_json BSuccess ∧
      (count_id id (properties st) = 0%nat ->
         app (PUT_property id) e now st req = (st, res_json BSuccess)) ∧
      (∀ before d after,
         properties st = before ++ d :: after -> count_id id before = 0%nat ->
         has_id id d = true ->
         app (PUT_property id) e now st req =
           (set_properties st (before ++ set_fields u d :: after),
            res_json BSuccess))
  | None =>
      app (PUT_property id) e now st req =
        (st, res_status_json 500 (BError "Failed to update property"))
  end ∧
  match castObject teamSchema (req_body req) with
  | Some u =>
      (∀ k, k ∉ schema_names teamSchema -> u !! k = None) ∧
      (∀ p, p ∈ teamSchema ->
            u !! path_name p = req_body req !! path_name p ≫= cast (path_type p)) ∧
      (count_id id (team st) = 0%nat ->
         app (PUT_team id) e now st req = (st, NotFound_TeamMember)) ∧
      (∀ before d after,
         team st = before ++ d :: after -> count_id id before = 0%nat ->
         has_id id d = true ->
         ∃ stored updated,
           app (PUT_team id) e now st req =
             (set_team st (before ++ stored :: after),
              res_json (BSuccessData updated)) ∧
           (∀ k, stored !! k =
                   match u !! k with Some v => Some v | None => d !! k end) ∧
           (∀ k v, stored !! k = Some v -> updated !! k = Some v) ∧
           (∀ k, k ∉ schema_names teamSchema ->
                 stored !! k = None -> updated !! k = None) ∧
           (stored !! "createdAt" = None ->
              updated !! "createdAt" = Some (JDate now)))
  | None =>
      app (PUT_team id) e now st req =
        (st, res_status_json 500 (BError "Failed to update team member"))
  end.
Proof.
  intros Hauth Hplain.
  change (app (PUT_property id)) with (protect (put_property id)).
  change (app (PUT_team id)) with (protect (put_team id)).
  rewrite !(protect_next _ _ _ _ _ _ Hauth).
  unfold put_property, put_team. cbn [req_body].
  rewrite !(cast_update_plain _ _ Hplain). split.
  - destruct (castObject propertySchema (req_body req)) as [u|];
      cbn [fmap option_fmap option_map]; [|reflexivity].
    split; [|split].
    + destruct (decide (count_id id (properties st) = 0%nat)) as [Hz | Hc].
      * rewrite (findOneAndUpdate_no_match _ _ _ _ _ _ Hz). reflexivity.
      * destruct (findOne_split _ _ Hc) as (before & d & after & -> & Hb & Hd & _).
        rewrite (findOneAndUpdate_before _ _ _ _ _ _ _ (set_fields u d) _ Hb Hd eq_refl).
        reflexivity.
    + intros Hz. rewrite (findOneAndUpdate_no_match _ _ _ _ _ _ Hz).
      rewrite set_properties_same. reflexivity.
    + intros before d after -> Hb Hd.
      rewrite (findOneAndUpdate_before _ _ _ _ _ _ _ (set_fields u d) _ Hb Hd eq_refl).
      reflexivity.
  - destruct (castObject teamSchema (req_body req)) as [u|] eqn:Hu;
      cbn [fmap option_fmap option_map]; [|reflexivity].
    split; [|split; [|split]].
    + intros k Hk. exact (castObject_lookup_out _ _ _ _ Hu Hk).
    + intros p Hp. exact (castObject_lookup _ _ _ _ (schema_NoDup CTeamMember) Hu Hp).
    + intros Hz. rewrite (findOneAndUpdate_no_match _ _ _ _ _ _ Hz).
      rewrite set_team_same. reflexivity.
    + intros before d after -> Hb Hd.
      rewrite (findOneAndUpdate_before _ _ _ _ _ _ _ (set_fields u d) _ Hb Hd eq_refl).
      exists (set_fields u d), (applyDefaults now teamSchema (set_fields u d)).
      split; [reflexivity|]. split; [apply set_fields_lookup|]. split; [|split].
      * intros k v. apply applyDefaults_lookup_Some.
      * intros k Hk Hnone. rewrite applyDefaults_lookup_out by exact Hk. exact Hnone.
      * intros Hnone.
        apply (applyDefaults_default now teamSchema _
                 (mkPath "createdAt" TDate DefaultNow) (schema_NoDup CTeamMember));
          [in_list|exact Hnone].
Qed.

Lemma deleteOne_no_match id coll :
  count_id id coll = 0%nat -> deleteOne (has_id id) coll = coll.
Proof.
  unfold count_id. induction coll as [|d rest IH]; [reflexivity|].
  rewrite filter_cons. cbn [deleteOne].
  destruct (decide (has_id id d = true)) as [Ht | Hf].
  - discriminate.
  - apply not_true_is_false in Hf. rewrite Hf.
    intros Hc. rewrite (IH Hc). reflexivity.
Qed.

Lemma deleteOne_twice id coll :
  (count_id id coll ≤ 1)%nat ->
  deleteOne (has_id id) (deleteOne (has_id id) coll) = deleteOne (has_id id) coll.
Proof.
  unfold count_id. induction coll as [|d rest IH]; [reflexivity|].
  rewrite filter_cons. cbn [deleteOne].
  destruct (decide (has_id id d = true)) as [Ht | Hf].
  - rewrite Ht. cbn [length]. intros Hc.
    apply deleteOne_no_match. unfold count_id. lia.
  - apply not_true_is_false in Hf. rewrite Hf. cbn [deleteOne]. rewrite Hf.
    intros Hc. rewrite (IH Hc). reflexivity.
Qed.

(** C9 (amended): behind the middleware, a delete on properties or team is
    answered [{success: true}] whether or not a record has the id, so two
    deletes of the same id both report success.  The first match only is
    removed: the state after the second delete equals the state after the
    first when at most one record of the collection carries the id. *)
Theorem C9_delete_twice e now1 now2 st req1 req2 id adm1 adm2 :
  verifyToken e now1 req1 = Next adm1 ->
  verifyToken e now2 req2 = Next adm2 ->
  (let r1 := app (DELETE_property id) e now1 st req1 in
   let r2 := app (DELETE_property id) e now2 r1.1 req2 in
   r1.2 = res_json BSuccess ∧ r2.2 = res_json BSuccess ∧
   ((count_id id (properties st) ≤ 1)%nat -> r2.1 = r1.1)) ∧
  (let r1 := app (DELETE_team id) e now1 st req1 in
   let r2 := app (DELETE_team id) e now2 r1.1 req2 in
   r1.2 = res_json BSuccess ∧ r2.2 = res_json BSuccess ∧
   ((count_id id (team st) ≤ 1)%nat -> r2.1 = r1.1)).
Proof.
  intros H1 H2. simpl.
  rewrite !(protect_next _ _ _ _ _ _ H1), !(protect_next _ _ _ _ _ _ H2).
  unfold delete_property, delete_team. simpl.
  repeat split; intros Hc; unfold set_properties, set_team; simpl;
    rewrite (deleteOne_twice _ _ Hc); reflexivity.
Qed.

(** ** Token lifetime *)

Lemma jwt_verify_issued secret payload token iat exp t :
  jws_open secret token = Some payload ->
  jp_nbf payload = None -> jp_exp payload = Some exp -> jp_iat payload = iat ->
  jwt_verify token secret t =
    if decide (clockTimestamp t < exp) then inl payload else inr TokenExpiredError.
Proof.
  intros Hopen Hnbf Hexp _. unfold jwt_verify. rewrite Hopen, Hnbf, Hexp.
  destruct (decide (clockTimestamp t < exp)) as [Hlt | Hge].
  - rewrite (proj2 (Z.leb_gt _ _)) by exact Hlt. reflexivity.
  - rewrite (proj2 (Z.leb_le _ _)) by lia. reflexivity.
Qed.

(** C6 (amended): a login with the admin email and a password that matches
    the configured hash is answered with a token that opens (under the
    server secret) to [{email, role: "admin"}] with an expiry 86400 seconds
    after the whole second of issuance.  Its verification succeeds exactly
    while the whole second of the verification time is before that expiry:
    in milliseconds, it succeeds up to 23 h 59 min 59 s after the login and
    fails from 24 h after it on, and within the last second it fails once the
    clock second has reached the expiry.  The outcome depends on the token
    and the clock alone: behind the middleware every store and every handler
    see the same decision. *)
Theorem C6_token_lifetime e now st req pw :
  let payload :=
    mkPayload (ADMIN_EMAIL e) "admin" (clockTimestamp now) None
              (Some (clockTimestamp now + expiresIn_24h)) in
  strict_eq_string (req_body req !! "email") (ADMIN_EMAIL e) = true ->
  ADMIN_PASSWORD_HASH e ≠ EmptyString ->
  req_body req !! "password" = Some (JStr pw) ->
  bcrypt_compare pw (ADMIN_PASSWORD_HASH e) = true ->
  jws_open (JWT_SECRET e) (jws_sign (JWT_SECRET e) payload) = Some payload ->
  ∃ token,
    app POST_auth_login e now st req = (st, res_json (BSuccessToken token)) ∧
    jws_open (JWT_SECRET e) token = Some payload ∧
    (∀ t, jwt_verify token (JWT_SECRET e) t =
            if decide (clockTimestamp t < clockTimestamp now + 86400)
            then inl payload else inr TokenExpiredError) ∧
    (∀ t, t ≤ now + 86399000 -> jwt_verify token (JWT_SECRET e) t = inl payload) ∧
    (∀ t, now + 86400000 ≤ t ->
          jwt_verify token (JWT_SECRET e) t = inr TokenExpiredError) ∧
    (∀ t req' (h : Handler) st1 st2,
       extract_token req' = Some token -> token ≠ EmptyString ->
       if decide (clockTimestamp t < clockTimestamp now + 86400)
       then verifyToken e t req' = Next payload ∧
            protect h e t st1 req' =
              h e t st1 (mkRequest (req_authorization req') (req_body req')
                                   (Some payload)) ∧
            protect h e t st2 req' =
              h e t st2 (mkRequest (req_authorization req') (req_body req')
                                   (Some payload))
       else protect h e t st1 req' = (st1, Rejected_InvalidToken) ∧
            protect h e t st2 req' = (st2, Rejected_InvalidToken)).
Proof.
  intros payload Hemail Hhash Hpw Hcmp Hopen.
  exists (jws_sign (JWT_SECRET e) payload).
  assert (Hverify : ∀ t, jwt_verify (jws_sign (JWT_SECRET e) payload) (JWT_SECRET e) t =
            if decide (clockTimestamp t < clockTimestamp now + 86400)
            then inl payload else inr TokenExpiredError).
  { intros t. eapply jwt_verify_issued; eauto; reflexivity. }
  split; [|split; [exact Hopen|split; [exact Hverify|split; [|split]]]].
  - change (app POST_auth_login) with post_auth_login.
    rewrite (post_auth_login_password e now st req pw Hemail Hhash Hpw), Hcmp.
    reflexivity.
  - intros t Ht. rewrite Hverify. apply decide_True.
    unfold clockTimestamp. Z.div_mod_to_equations. lia.
  - intros t Ht. rewrite Hverify. apply decide_False.
    unfold clockTimestamp. Z.div_mod_to_equations. lia.
  - intros t req' h st1 st2 Htok Hne.
    destruct (jws_sign (JWT_SECRET e) payload) as [|c tok] eqn:Hsig;
      [contradiction|].
    pose proof (verifyToken_token e t req' c tok Htok) as Hgate.
    rewrite Hverify in Hgate.
    destruct (decide (clockTimestamp t < clockTimestamp now + 86400)).
    + repeat split; [exact Hgate|..]; apply protect_next, Hgate.
    + split; apply protect_halt, Hgate.
Qed.

(** C7: the leads list sits behind the middleware.  A request the
    middleware does not let through is answered by the middleware's 401 and
    the handler is not run; a request it lets through is answered with all
    leads, newest [created_at] first.  The store is left as it was in both
    cases.  The lists of the other three collections answer every request,
    with or without a token. *)
Theorem C7_leads_list_protected e now st req :
  match verifyToken e now req with
  | Halt r =>
      res_status r = 401 ∧
      app GET_leads e now st req = (st, r) ∧
      (∀ h : Handler, protect h e now st req = (st, r))
  | Next _ =>
      ∃ l, app GET_leads e now st req = (st, res_json (BDocs l)) ∧
           l ≡ₚ leads st ∧ StronglySorted newer_first l
  end ∧
  app GET_contact e now st req =
    (st, res_json (BDocs (sort_created_desc (contacts st)))) ∧
  app GET_team e now st req = (st, res_json (BDocs (team st))) ∧
  app GET_properties e now st req = (st, res_json (BDocs (properties st))).
Proof.
  split; [|repeat split].
  destruct (verifyToken e now req) as [adm | r] eqn:Hgate.
  - exists (sort_created_desc (leads st)).
    destruct (sort_created_desc_spec (leads st)) as [Hperm Hsorted].
    split; [|split; assumption].
    simpl. rewrite (protect_next _ _ _ _ _ _ Hgate). reflexivity.
  - split; [eapply verifyToken_halt_401, Hgate|].
    split; [simpl|intros h]; apply protect_halt, Hgate.
Qed.

End Properties.

(** * The handlers on concrete requests *)

Section Runs.
Import Ref.
Existing Instance packages.

Lemma twins_reachable :
  let r1 := app POST_team env t0 empty_store (bearer admin_token alice) in
  let r2 := app POST_team env t0 r1.1 (bearer admin_token carol) in
  team r2.1 = [<["createdAt" := JDate t0]> alice; <["createdAt" := JDate t0]> carol].
Proof. vm_compute. reflexivity. Qed.

Lemma C1_witness :
  req_authorization (anonymous bob) = None ∧
  app (DELETE_team "7") env t0 twins (anonymous bob) = (twins, Rejected_NoToken).
Proof.
  split; [reflexivity|].
  apply (C1_missing_token_short_circuits env t0 twins (anonymous bob));
    [left; reflexivity|reflexivity].
Defined.

Lemma C2_counterexample :
  ADMIN_PASSWORD_HASH unconfigured = EmptyString ∧
  app POST_auth_login unconfigured t0 empty_store (anonymous intruder_login) =
    (empty_store, Rejected_InvalidCredentials) ∧
  res_body Rejected_InvalidCredentials ≠ res_body Rejected_ConfigurationMissing.
Proof. split; [reflexivity|split; [vm_compute; reflexivity|discriminate]]. Qed.

Lemma C2_witness :
  strict_eq_string (intruder_login !! "email") (ADMIN_EMAIL unconfigured) = false ∧
  post_auth_login unconfigured t0 empty_store (anonymous intruder_login) =
    (empty_store, Rejected_InvalidCredentials).
Proof.
  split; [vm_compute; reflexivity|].
  apply (C2_login_checks_email_first unconfigured t0 empty_store
           (anonymous intruder_login)).
  vm_compute. reflexivity.
Defined.

Lemma C3_counterexample :
  req_authorization basic_request = Some "Basic abc" ∧
  verifyToken env t0 basic_request = Halt Rejected_InvalidToken ∧
  res_body Rejected_InvalidToken ≠ res_body Rejected_NoToken.
Proof. split; [reflexivity|split; [vm_compute; reflexivity|discriminate]]. Qed.

Lemma C3_witness :
  verifyToken env t0 basic_request =
    match jwt_verify "abc" (JWT_SECRET env) t0 with
    | inl decoded => Next decoded
    | inr _ => Halt Rejected_InvalidToken
    end.
Proof.
  apply (C3_no_token_iff_no_second_segment env t0 basic_request) with (scheme := "Basic");
    [reflexivity|reflexivity|discriminate|reflexivity].
Defined.

Lemma C4_counterexample :
  bob_nickname !! "nickname" = Some (JStr "Bobby") ∧
  app POST_contact env t0 empty_store (anonymous bob_nickname) =
    (mkStore [] [] [bob_stored] [], res_json (BSuccessData bob_stored)) ∧
  bob_stored !! "nickname" = None.
Proof. repeat split; vm_compute; reflexivity. Qed.

Lemma C4_witness :
  plain_object bob_nickname = true ∧
  ("nickname" ∉ schema_names contactSchema) ∧ bob_stored !! "nickname" = None.
Proof.
  assert (Hplain : plain_object bob_nickname = true) by (vm_compute; reflexivity).
  assert (Hout : "nickname" ∉ schema_names contactSchema).
  { apply (bool_decide_unpack _). vm_compute. reflexivity. }
  split; [exact Hplain|]. split; [exact Hout|].
  destruct (C4_create_keeps_schema_paths_only CContact env t0 empty_store
              (anonymous bob_nickname) Hplain) as (_ & Hstored & _).
  destruct (Hstored (mkStore [] [] [bob_stored] []) bob_stored) as (_ & Hdrop & _).
  - vm_compute. reflexivity.
  - apply Hdrop, Hout.
Defined.

Lemma C5_counterexample :
  verifyToken env t0 (bearer admin_token bad_beds) =
    Next (mkPayload "admin@ssprealty.com" "admin" 1700000000 None (Some 1700086400)) ∧
  app (PUT_property "p1") env t0 one_property (bearer admin_token bad_beds) =
    (one_property, res_status_json 500 (BError "Failed to update property")) ∧
  res_body (res_status_json 500 (BError "Failed to update property")) ≠ BSuccess.
Proof.
  split; [vm_compute; reflexivity|]. split; [vm_compute; reflexivity|discriminate].
Qed.

Lemma C5_witness :
  verifyToken env t0 (bearer admin_token rename) =
    Next (mkPayload "admin@ssprealty.com" "admin" 1700000000 None (Some 1700086400)) ∧
  plain_object rename = true ∧
  app (PUT_team "42") env t0 staff (bearer admin_token rename) =
    (staff, NotFound_TeamMember) ∧
  (∃ stored updated,
     app (PUT_team "7") env t0 staff (bearer admin_token rename) =
       (set_team staff ([] ++ stored :: [carol_stored]),
        res_json (BSuccessData updated)) ∧
     stored !! "name" = Some (JStr "Alicia") ∧
     updated !! "name" = Some (JStr "Alicia") ∧
     updated !! "role" = Some (JStr "Agent")) ∧
  (app (PUT_property "42") env t0 staff (bearer admin_token rename)).2 =
    res_json BSuccess.
Proof.
  assert (Hauth : verifyToken env t0 (bearer admin_token rename) =
    Next (mkPayload "admin@ssprealty.com" "admin" 1700000000 None (Some 1700086400))).
  { vm_compute. reflexivity. }
  assert (Hplain : plain_object rename = true) by (vm_compute; reflexivity).
  split; [exact Hauth|]. split; [exact Hplain|].
  pose proof (C5_update_by_id env t0 staff (bearer admin_token rename) "42" _
                Hauth Hplain) as [Hprop Hnone].
  pose proof (C5_update_by_id env t0 staff (bearer admin_token rename) "7" _
                Hauth Hplain) as [_ Hsome].
  assert (Hteam : castObject teamSchema (req_body (bearer admin_token rename)) =
                  Some rename) by (vm_compute; reflexivity).
  assert (Hproperty : castObject propertySchema (req_body (bearer admin_token rename)) =
                      Some ∅) by (vm_compute; reflexivity).
  rewrite Hteam in Hnone, Hsome. rewrite Hproperty in Hprop.
  destruct Hnone as (_ & _ & Hnone & _). destruct Hsome as (_ & _ & _ & Hsome).
  split; [|split].
  - apply Hnone. vm_compute. reflexivity.
  - destruct (Hsome [] alice_stored [carol_stored])
      as (stored & updated & Hrun & Hstored & Hkept & _);
      [reflexivity|reflexivity|vm_compute; reflexivity|].
    exists stored, updated. split; [exact Hrun|].
    assert (Hname : stored !! "name" = Some (JStr "Alicia")).
    { rewrite Hstored. vm_compute. reflexivity. }
    assert (Hrole : stored !! "role" = Some (JStr "Agent")).
    { rewrite Hstored. vm_compute. reflexivity. }
    split; [exact Hname|]. split; apply Hkept; assumption.
  - apply Hprop.
Defined.

Lemma C6_counterexample :
  app POST_auth_login env t0 empty_store (anonymous admin_login) =
    (empty_store, res_json (BSuccessToken admin_token)) ∧
  jwt_verify admin_token (JWT_SECRET env) (t0 + 86399876) =
    inl (mkPayload "admin@ssprealty.com" "admin" 1700000000 None (Some 1700086400)) ∧
  jwt_verify admin_token (JWT_SECRET env) (t0 + 86399877) = inr TokenExpiredError ∧
  t0 + 86399877 < t0 + 86400000.
Proof. repeat split; vm_compute; reflexivity. Qed.

Lemma C6_witness :
  ∃ token,
    app POST_auth_login env t0 empty_store (anonymous admin_login) =
      (empty_store, res_json (BSuccessToken token)) ∧
    jwt_verify token (JWT_SECRET env) (t0 + 86399000) =
      inl (mkPayload "admin@ssprealty.com" "admin" 1700000000 None (Some 1700086400)) ∧
    jwt_verify token (JWT_SECRET env) (t0 + 86400000) = inr TokenExpiredError.
Proof.
  destruct (C6_token_lifetime env t0 empty_store (anonymous admin_login) "s3cret")
    as (token & Hlogin & _ & _ & Hvalid & Hexpired & _).
  - vm_compute. reflexivity.
  - vm_compute. discriminate.
  - vm_compute. reflexivity.
  - vm_compute. reflexivity.
  - vm_compute. reflexivity.
  - exists token. split; [exact Hlogin|]. split.
    + apply Hvalid. lia.
    + apply Hexpired. lia.
Defined.

Lemma C7_witness :
  app GET_leads env t0 (mkStore [] [] [] [ann_stored; bob_stored])
      (bearer admin_token ∅) =
    (mkStore [] [] [] [ann_stored; bob_stored],
     res_json (BDocs [bob_stored; ann_stored])) ∧
  app GET_leads env t0 (mkStore [] [] [] [ann_stored; bob_stored]) basic_request =
    (mkStore [] [] [] [ann_stored; bob_stored], Rejected_InvalidToken).
Proof.
  split.
  - vm_compute. reflexivity.
  - pose proof (C7_leads_list_protected env t0
                  (mkStore [] [] [] [ann_stored; bob_stored]) basic_request) as [Hgate _].
    assert (Hhalt : verifyToken env t0 basic_request = Halt Rejected_InvalidToken).
    { vm_compute. reflexivity. }
    rewrite Hhalt in Hgate. apply Hgate.
Defined.

Lemma C8_witness :
  plain_object bob = true ∧
  app POST_contact env t0 one_contact (anonymous bob) =
    (mkStore [] [] [ann_stored; bob_stored] [], res_json (BSuccessData bob_stored)) ∧
  bob_stored !! "id" = Some (JStr "1700000000123") ∧
  bob_stored !! "created_at" = Some (JDate 1700000000125) ∧
  ∃ older,
    app GET_contact env (t0 + 1) (mkStore [] [] [ann_stored; bob_stored] [])
        (anonymous ∅) =
      (mkStore [] [] [ann_stored; bob_stored] [],
       res_json (BDocs (bob_stored :: older))).
Proof.
  assert (Hplain : plain_object bob = true) by (vm_compute; reflexivity).
  split; [exact Hplain|].
  destruct (C8_contact_submission env t0 one_contact (anonymous bob) Hplain)
    as (d & Hpost & _ & Hid & _ & _ & Hdate & Hlist).
  - intros k v Hk Hv.
    repeat (apply elem_of_cons in Hk as [-> | Hk]);
      [vm_compute in Hv; injection Hv as <-; eauto..|inversion Hk].
  - vm_compute. reflexivity.
  - assert (Hd : d = bob_stored).
    { assert (Hrun : app POST_contact env t0 one_contact (anonymous bob) =
        (mkStore [] [] [ann_stored; bob_stored] [], res_json (BSuccessData bob_stored)))
        by (vm_compute; reflexivity).
      rewrite Hrun in Hpost. injection Hpost as _ Hdoc.
      symmetry. exact Hdoc. }
    subst d. split; [exact Hpost|]. split; [exact Hid|]. split; [exact Hdate|].
    destruct (Hlist env (t0 + 1) (anonymous ∅)) as (older & Hget & _).
    + intros c Hc. apply list_elem_of_singleton in Hc as ->. vm_compute. reflexivity.
    + exists older. exact Hget.
Defined.

Lemma C9_counterexample :
  count_id "7" (team twins) = 2%nat ∧
  app (DELETE_team "7") env t0 twins (bearer admin_token ∅) =
    (only_carol, res_json BSuccess) ∧
  app (DELETE_team "7") env t0 only_carol (bearer admin_token ∅) =
    (empty_store, res_json BSuccess) ∧
  length (team only_carol) = 1%nat ∧ length (team empty_store) = 0%nat.
Proof. repeat split; vm_compute; reflexivity. Qed.

Lemma C9_witness :
  (count_id "7" (team only_carol) ≤ 1)%nat ∧
  (app (DELETE_team "7") env t0
     (app (DELETE_team "7") env t0 only_carol (bearer admin_token ∅)).1
     (bearer admin_token ∅)).1 =
  (app (DELETE_team "7") env t0 only_carol (bearer admin_token ∅)).1.
Proof.
  assert (Hcount : (count_id "7" (team only_carol) ≤ 1)%nat).
  { vm_compute. reflexivity. }
  split; [exact Hcount|].
  destruct (C9_delete_twice env t0 t0 only_carol (bearer admin_token ∅)
              (bearer admin_token ∅) "7"
              (mkPayload "admin@ssprealty.com" "admin" 1700000000 None (Some 1700086400))
              (mkPayload "admin@ssprealty.com" "admin" 1700000000 None (Some 1700086400)))
    as (_ & _ & _ & Hsame).
  - vm_compute. reflexivity.
  - vm_compute. reflexivity.
  - exact (Hsame Hcount).
Defined.


End Runs.

(** * Further properties of the handlers *)

Section Coverage.
Context {P : Packages}.

Ltac status_case :=
  first [ left; split; reflexivity
        | right; split;
          [first [left; reflexivity | right; left; reflexivity
                 | right; right; reflexivity]
          | split; reflexivity] ].

Lemma app_unfold r :
  app r = if uses_verifyToken r then protect (handler_of r) else handler_of r.
Proof. destruct r; reflexivity. Qed.

Lemma verifyToken_halt_cases e now req r :
  verifyToken e now req = Halt r ->
  r = Rejected_NoToken ∨ r = Rejected_InvalidToken.
Proof.
  unfold verifyToken.
  destruct (extract_token req) as [[|c tok]|]; try (intros [= <-]; left; reflexivity).
  destruct (jwt_verify _ _ _); intros [= <-]. right; reflexivity.
Qed.

Lemma handler_answered r e now st req : answered st (handler_of r e now st req).
Proof.
  destruct r; cbn [handler_of].
  - status_case.
  - status_case.
  - unfold post_auth_login.
    destruct (negb _); [status_case|].
    destruct (String.eqb _ _); [status_case|].
    destruct (req_body req !! "password") as [[]|]; try status_case.
    destruct (bcrypt_compare _ _); status_case.
  - status_case.
  - unfold post_properties. destruct (new_document _ _ _ _); status_case.
  - unfold get_property. destruct (findOne _ _); status_case.
  - unfold put_property. destruct (cast_update _ _) as [upd|]; [|status_case].
    destruct (findOneAndUpdate _ _ _ _ _ _) as [[? ?]|]; status_case.
  - status_case.
  - status_case.
  - unfold post_team. destruct (new_document _ _ _ _); status_case.
  - unfold put_team. destruct (cast_update _ _) as [upd|]; [|status_case].
    destruct (findOneAndUpdate now teamSchema (has_id id) upd true (team st))
      as [[[updated|] team']|] eqn:Hrun; try status_case.
    unfold findOneAndUpdate in Hrun.
    destruct (updateOne (has_id id) upd (team st)) as [coll'|] eqn:Hupd;
      cbn [mbind option_bind] in Hrun; [|discriminate].
    destruct (findOne (has_id id) (team st)) as [d|] eqn:Hfind.
    + exfalso.
      assert (Hnone : upd d = None).
      { injection Hrun. intros _ Hnone. apply fmap_None in Hnone. exact Hnone. }
      assert (Hc : count_id id (team st) ≠ 0%nat).
      { intros Hz%count_id_zero. congruence. }
      destruct (findOne_split _ _ Hc) as (before & d0 & after & Hs & Hb & Hd & Hf).
      assert (d0 = d) as -> by congruence.
      rewrite Hs in Hupd.
      assert (Hnone' : updateOne (has_id id) upd (before ++ d :: after) = None).
      { clear -Hb Hd Hnone. apply count_id_zero in Hb. unfold findOne in Hb.
        induction before as [|x before IH]; simpl in *.
        - rewrite Hd, Hnone. reflexivity.
        - destruct (has_id id x); [discriminate|]. rewrite (IH Hb). reflexivity. }
      congruence.
    + rewrite (updateOne_no_match _ _ _ Hfind) in Hupd. injection Hupd as <-.
      assert (team' = team st) as -> by (injection Hrun; intros; congruence).
      rewrite set_team_same. status_case.
  - status_case.
  - unfold post_contact. destruct (new_document _ _ _ _); status_case.
  - status_case.
  - unfold post_leads. destruct (new_document _ _ _ _); status_case.
  - status_case.
Qed.

Lemma protect_answered (h : Handler) e now st req :
  (∀ req', answered st (h e now st req')) -> answered st (protect h e now st req).
Proof.
  intros Hh. unfold protect.
  destruct (verifyToken e now req) as [adm | r] eqn:Hgate; [apply Hh|].
  destruct (verifyToken_halt_cases _ _ _ _ Hgate) as [-> | ->]; status_case.
Qed.

(** X1: every route answers either with status 200 and a result, or with an
    error object of status 401, 404 or 500; an error answer leaves the store
    as it was. *)
Theorem X1_error_answers_keep_store r e now st req :
  answered st (app r e now st req) ∧
  (res_status (app r e now st req).2 ≠ 200 -> (app r e now st req).1 = st).
Proof.
  assert (Hans : answered st (app r e now st req)).
  { rewrite app_unfold. destruct (uses_verifyToken r).
    - apply protect_answered. intros req'. apply handler_answered.
    - apply handler_answered. }
  split; [exact Hans|].
  destruct Hans as [[Hok _] | (_ & _ & Hst)]; [contradiction|auto].
Qed.

Lemma handler_read_only r e now st req :
  read_only r = true -> (handler_of r e now st req).1 = st.
Proof.
  destruct r; try discriminate; intros _; cbn [handler_of]; try reflexivity.
  - destruct (handler_answered POST_auth_login e now st req)
      as [[Hok _] | (_ & _ & Hst)]; [|exact Hst].
    cbn [handler_of] in *. revert Hok. unfold post_auth_login.
    destruct (negb _); [reflexivity|].
    destruct (String.eqb _ _); [reflexivity|].
    destruct (req_body req !! "password") as [[]|]; try reflexivity.
    destruct (bcrypt_compare _ _); reflexivity.
  - unfold get_property. destruct (findOne _ _); reflexivity.
Qed.

(** X2: the list and lookup routes and the login route never change the
    store, whatever the request and whether or not it passes the
    middleware. *)
Theorem X2_reads_keep_store r e now st req :
  read_only r = true -> (app r e now st req).1 = st.
Proof.
  intros Hr. rewrite app_unfold. destruct (uses_verifyToken r).
  - unfold protect. destruct (verifyToken e now req); [|reflexivity].
    apply handler_read_only, Hr.
  - apply handler_read_only, Hr.
Qed.

Lemma handler_other_collections r c e now st req :
  route_collection r ≠ Some c ->
  collection_of c (handler_of r e now st req).1 = collection_of c st.
Proof.
  intros Hc.
  destruct (read_only r) eqn:Hro; [rewrite handler_read_only; auto|].
  destruct r; try discriminate; cbn [handler_of];
    destruct c; try (exfalso; apply Hc; reflexivity);
    unfold post_properties, put_property, delete_property, post_team, put_team,
           delete_team, post_contact, post_leads, findOneAndUpdate;
    repeat match goal with
           | |- context [match ?x with _ => _ end] => destruct x
           end; reflexivity.
Qed.

(** X3: the collections are independent: a route changes no collection
    other than its own (and the root, health and login routes change
    none). *)
Theorem X3_routes_touch_own_collection r c e now st req :
  route_collection r ≠ Some c ->
  collection_of c (app r e now st req).1 = collection_of c st.
Proof.
  intros Hc. rewrite app_unfold. destruct (uses_verifyToken r).
  - unfold protect. destruct (verifyToken e now req); [|reflexivity].
    apply handler_other_collections, Hc.
  - apply handler_other_collections, Hc.
Qed.

(** X4: a request that carries a non-empty token whose verification throws
    (malformed, wrong signature, not yet valid or expired) is answered 401
    "Invalid token" on each of the seven routes behind the middleware; the
    handler is not run and the store is kept. *)
Theorem X4_invalid_token_rejected r e now st req token err :
  uses_verifyToken r = true ->
  extract_token req = Some token -> token ≠ EmptyString ->
  jwt_verify token (JWT_SECRET e) now = inr err ->
  app r e now st req = (st, Rejected_InvalidToken) ∧
  (∀ h : Handler, protect h e now st req = (st, Rejected_InvalidToken)).
Proof.
  intros Hr Htok Hne Herr.
  assert (Hgate : verifyToken e now req = Halt Rejected_InvalidToken).
  { destruct token as [|c tok]; [contradiction|].
    rewrite (verifyToken_token _ _ _ _ _ Htok), Herr. reflexivity. }
  split; [|intros h; apply protect_halt, Hgate].
  rewrite app_unfold, Hr. apply protect_halt, Hgate.
Qed.

(** ** Handlers read the body only *)

Lemma handler_reads_body r e now st req req' :
  req_body req = req_body req' ->
  handler_of r e now st req = handler_of r e now st req'.
Proof.
  intros Hbody. destruct r; cbn [handler_of];
    unfold post_auth_login, get_properties, post_properties, get_property,
           put_property, delete_property, get_team, post_team, put_team,
           delete_team, post_contact, get_contact, post_leads, get_leads;
    rewrite ?Hbody; reflexivity.
Qed.

Lemma app_earlier_handler r h : app_earlier r = Some h -> h = handler_of r.
Proof. destruct r; intros [= <-]; reflexivity. Qed.

(** X5: the present server against the earlier server file.  On every route
    the earlier file has, a request is answered by the present server as the
    earlier one answered it, provided the route is not behind the middleware
    or the middleware lets the request through; the identity the middleware
    attaches to the request changes nothing.  Without a token the earlier
    file ran the write that the present one refuses. *)
Theorem X5_present_server_agrees_with_earlier r h e now st req :
  app_earlier r = Some h ->
  (uses_verifyToken r = false -> app r e now st req = h e now st req) ∧
  (∀ adm, verifyToken e now req = Next adm ->
          app r e now st req = h e now st req) ∧
  (uses_verifyToken r = true -> ∀ resp, verifyToken e now req = Halt resp ->
     app r e now st req = (st, resp)).
Proof.
  intros Hh. apply app_earlier_handler in Hh as ->. rewrite app_unfold.
  split; [|split].
  - intros ->. reflexivity.
  - intros adm Hgate. destruct (uses_verifyToken r); [|reflexivity].
    rewrite (protect_next _ _ _ _ _ _ Hgate).
    apply handler_reads_body. reflexivity.
  - intros -> resp Hgate. apply protect_halt, Hgate.
Qed.

(** ** Login *)

Lemma post_auth_login_cases e now st req :
  let email_ok := strict_eq_string (req_body req !! "email") (ADMIN_EMAIL e) in
  let out := post_auth_login e now st req in
  (email_ok = false ∧ out = (st, Rejected_InvalidCredentials)) ∨
  (email_ok = true ∧ ADMIN_PASSWORD_HASH e = EmptyString ∧
   out = (st, Rejected_ConfigurationMissing)) ∨
  (email_ok = true ∧ ADMIN_PASSWORD_HASH e ≠ EmptyString ∧
   ∃ pw, req_body req !! "password" = Some (JStr pw) ∧
         bcrypt_compare pw (ADMIN_PASSWORD_HASH e) = false ∧
         out = (st, Rejected_InvalidCredentials)) ∨
  (email_ok = true ∧ ADMIN_PASSWORD_HASH e ≠ EmptyString ∧
   ∃ pw, req_body req !! "password" = Some (JStr pw) ∧
         bcrypt_compare pw (ADMIN_PASSWORD_HASH e) = true ∧
         out = (st, res_json (BSuccessToken
                      (jwt_sign (ADMIN_EMAIL e) "admin" (JWT_SECRET e) now)))) ∨
  (email_ok = true ∧ ADMIN_PASSWORD_HASH e ≠ EmptyString ∧
   (∀ pw, req_body req !! "password" ≠ Some (JStr pw)) ∧
   out = (st, res_status_json 500 (BError "Login failed"))).
Proof.
  cbv zeta. unfold post_auth_login.
  destruct (strict_eq_string _ _); cbn [negb]; [right|left; split; reflexivity].
  destruct (String.eqb_spec (ADMIN_PASSWORD_HASH e) EmptyString) as [Heq | Hne].
  { left. split; [reflexivity|]. split; [exact Heq|reflexivity]. }
  right.
  destruct (req_body req !! "password") as [[| | |pw| | |]|];
    try (right; right; split; [reflexivity|]; split; [exact Hne|];
         split; [intros pw'; discriminate|reflexivity]).
  destruct (bcrypt_compare pw (ADMIN_PASSWORD_HASH e)) eqn:Hcmp.
  - right; left. split; [reflexivity|]. split; [exact Hne|].
    exists pw. split; [reflexivity|]. split; [exact Hcmp|reflexivity].
  - left. split; [reflexivity|]. split; [exact Hne|].
    exists pw. split; [reflexivity|]. split; [exact Hcmp|reflexivity].
Qed.

(** X6: the login route answers 200 only to the admin email with a string
    password that the comparison accepts against a configured hash, and the
    token of the answer is the one signed for [{email, role: "admin"}] at
    the clock reading; every other login request is answered 401 or 500
    without a token. *)
Theorem X6_token_only_for_valid_credentials e now st req :
  let out := app POST_auth_login e now st req in
  (res_status out.2 = 200 ->
     strict_eq_string (req_body req !! "email") (ADMIN_EMAIL e) = true ∧
     ADMIN_PASSWORD_HASH e ≠ EmptyString ∧
     ∃ pw, req_body req !! "password" = Some (JStr pw) ∧
           bcrypt_compare pw (ADMIN_PASSWORD_HASH e) = true ∧
           res_body out.2 =
             BSuccessToken (jwt_sign (ADMIN_EMAIL e) "admin" (JWT_SECRET e) now)) ∧
  (res_status out.2 ≠ 200 ->
     (res_status out.2 = 401 ∨ res_status out.2 = 500) ∧
     error_body (res_body out.2) = true).
Proof.
  cbv zeta. change (app POST_auth_login) with post_auth_login.
  destruct (post_auth_login_cases e now st req)
    as [[_ ->] | [(_ & _ & ->) | [(_ & _ & pw & _ & _ & ->)
       | [(Hemail & Hhash & pw & Hpw & Hcmp & ->) | (_ & _ & _ & ->)]]]];
    split; intros Hst; try discriminate Hst; try (contradiction Hst; reflexivity);
    try (split; [auto|reflexivity]).
  split; [exact Hemail|]. split; [exact Hhash|]. exists pw. auto.
Qed.

(** X7: while [ADMIN_PASSWORD_HASH] is unset or empty the login is closed:
    every login request, whatever its email and password, is answered 401
    and no token is issued. *)
Theorem X7_login_closed_without_hash e now st req :
  env_ADMIN_PASSWORD_HASH e = None ∨ env_ADMIN_PASSWORD_HASH e = Some EmptyString ->
  app POST_auth_login e now st req = (st, Rejected_InvalidCredentials) ∨
  app POST_auth_login e now st req = (st, Rejected_ConfigurationMissing).
Proof.
  intros Henv.
  assert (Hhash : ADMIN_PASSWORD_HASH e = EmptyString).
  { unfold ADMIN_PASSWORD_HASH. destruct Henv as [-> | ->]; reflexivity. }
  change (app POST_auth_login) with post_auth_login.
  destruct (post_auth_login_cases e now st req)
    as [[_ ->] | [(_ & _ & ->) | [(_ & Hne & _) | [(_ & Hne & _) | (_ & Hne & _)]]]];
    auto; contradiction.
Qed.

(** X8: for the admin email and a configured hash, a request whose password
    is missing or is not a string makes the comparison throw; the answer is
    500 "Login failed", not the 401 of a wrong password. *)
Theorem X8_password_not_a_string e now st req :
  strict_eq_string (req_body req !! "email") (ADMIN_EMAIL e) = true ->
  ADMIN_PASSWORD_HASH e ≠ EmptyString ->
  (∀ pw, req_body req !! "password" ≠ Some (JStr pw)) ->
  app POST_auth_login e now st req =
    (st, res_status_json 500 (BError "Login failed")).
Proof.
  intros Hemail Hhash Hpw. change (app POST_auth_login) with post_auth_login.
  destruct (post_auth_login_cases e now st req)
    as [[He _] | [(_ & Hh & _) | [(_ & _ & pw & Hp & _)
       | [(_ & _ & pw & Hp & _) | (_ & _ & _ & ->)]]]];
    try congruence; try (destruct (Hpw pw Hp)); reflexivity.
Qed.

(** ** Configuration *)

Lemma env_or_cases v dflt :
  (v = None ∨ v = Some EmptyString) ∧ env_or v dflt = dflt ∨
  ∃ s, v = Some s ∧ s ≠ EmptyString ∧ env_or v dflt = s.
Proof.
  destruct v as [s|]; [|left; auto].
  unfold env_or. destruct (String.eqb_spec s EmptyString) as [-> | Hne].
  - left; auto.
  - right. exists s. auto.
Qed.

(** X9: the constants read from the environment.  A variable that is unset
    or set to the empty string gives the built-in default, any other value is
    taken as it is; so the admin email and the signing secret are never
    empty, and the secret of a server started without [JWT_SECRET] is the
    literal of the source. *)
Theorem X9_environment_defaults e :
  ADMIN_EMAIL e ≠ EmptyString ∧ JWT_SECRET e ≠ EmptyString ∧
  (env_JWT_SECRET e = None ∨ env_JWT_SECRET e = Some EmptyString ->
     JWT_SECRET e = "ssp-realty-jwt-secret-key-change-in-production") ∧
  (env_ADMIN_EMAIL e = None ∨ env_ADMIN_EMAIL e = Some EmptyString ->
     ADMIN_EMAIL e = "admin@ssprealty.com") ∧
  (∀ s, s ≠ EmptyString ->
     (env_JWT_SECRET e = Some s -> JWT_SECRET e = s) ∧
     (env_ADMIN_EMAIL e = Some s -> ADMIN_EMAIL e = s) ∧
     (env_ADMIN_PASSWORD_HASH e = Some s -> ADMIN_PASSWORD_HASH e = s)).
Proof.
  unfold ADMIN_EMAIL, JWT_SECRET, ADMIN_PASSWORD_HASH.
  split; [|split; [|split; [|split]]].
  - destruct (env_or_cases (env_ADMIN_EMAIL e) "admin@ssprealty.com")
      as [[_ ->] | (s & _ & Hne & ->)]; [discriminate|exact Hne].
  - destruct (env_or_cases (env_JWT_SECRET e)
                "ssp-realty-jwt-secret-key-change-in-production")
      as [[_ ->] | (s & _ & Hne & ->)]; [discriminate|exact Hne].
  - intros [-> | ->]; reflexivity.
  - intros [-> | ->]; reflexivity.
  - intros s Hne.
    assert (Hs : ∀ d, env_or (Some s) d = s).
    { intros d. unfold env_or. destruct (String.eqb_spec s EmptyString); congruence. }
    repeat split; intros ->; apply Hs.
Qed.

(** X10: a property is looked up by its external id.  The answer is 404
    "Property not found" when no stored property carries the id; otherwise it
    is the first property in natural (insertion) order that carries it, so of
    several records created with one id the oldest is served. *)
Theorem X10_property_lookup_by_id id e now st req :
  (count_id id (properties st) = 0%nat ->
     app (GET_property id) e now st req =
       (st, res_status_json 404 (BError "Property not found"))) ∧
  (count_id id (properties st) ≠ 0%nat ->
     ∃ before d after,
       properties st = before ++ d :: after ∧ count_id id before = 0%nat ∧
       has_id id d = true ∧
       app (GET_property id) e now st req = (st, res_json (BDoc d))).
Proof.
  change (app (GET_property id)) with (get_property id). unfold get_property.
  split.
  - intros Hz%count_id_zero. rewrite Hz. reflexivity.
  - intros Hc. destruct (findOne_split _ _ Hc) as (before & d & after & Hs & Hb & Hd & Hf).
    exists before, d, after. rewrite Hf. auto.
Qed.

(** X11: the delete routes remove one record.  Behind the middleware, a
    delete of an id that no record carries leaves the collection as it is,
    and otherwise removes the first record in natural order that carries
    the id and nothing else: the records before and after it keep their
    order, and further records with the same id stay. *)
Theorem X11_delete_removes_first_match id e now st req adm :
  verifyToken e now req = Next adm ->
  (count_id id (team st) = 0%nat ->
     app (DELETE_team id) e now st req = (st, res_json BSuccess)) ∧
  (∀ before d after,
     team st = before ++ d :: after -> count_id id before = 0%nat ->
     has_id id d = true ->
     app (DELETE_team id) e now st req =
       (set_team st (before ++ after), res_json BSuccess)) ∧
  (count_id id (properties st) = 0%nat ->
     app (DELETE_property id) e now st req = (st, res_json BSuccess)) ∧
  (∀ before d after,
     properties st = before ++ d :: after -> count_id id before = 0%nat ->
     has_id id d = true ->
     app (DELETE_property id) e now st req =
       (set_properties st (before ++ after), res_json BSuccess)).
Proof.
  intros Hauth.
  change (app (DELETE_team id)) with (protect (delete_team id)).
  change (app (DELETE_property id)) with (protect (delete_property id)).
  rewrite !(protect_next _ _ _ _ _ _ Hauth). unfold delete_team, delete_property.
  split; [|split; [|split]].
  - intros Hz. rewrite (deleteOne_no_match _ _ Hz), set_team_same. reflexivity.
  - intros before d after -> Hb Hd. rewrite (deleteOne_before _ _ _ _ Hb Hd).
    reflexivity.
  - intros Hz. rewrite (deleteOne_no_match _ _ Hz), set_properties_same. reflexivity.
  - intros before d after -> Hb Hd. rewrite (deleteOne_before _ _ _ _ Hb Hd).
    reflexivity.
Qed.

(** ** Updates *)

(** X12: a team update with plain field names is a partial update of one
    record.  Behind the middleware and for a body the schema casts to the
    fields [u]: [u] holds the cast values of the submitted schema fields and
    nothing else; when a member carries the id, the first such member is
    replaced in place by the record that takes the fields of [u] and keeps
    every other field, no other record moves or changes, and the answer
    carries the replaced record, with the schema defaults filled in where it
    lacks them. *)
Theorem X12_team_update_is_partial id e now st req adm u :
  verifyToken e now req = Next adm ->
  plain_object (req_body req) = true ->
  castObject teamSchema (req_body req) = Some u ->
  (∀ k, k ∉ schema_names teamSchema -> u !! k = None) ∧
  (∀ p, p ∈ teamSchema ->
        u !! path_name p = req_body req !! path_name p ≫= cast (path_type p)) ∧
  (∀ before d after,
     team st = before ++ d :: after -> count_id id before = 0%nat ->
     has_id id d = true ->
     app (PUT_team id) e now st req =
       (set_team st (before ++ set_fields u d :: after),
        res_json (BSuccessData (applyDefaults now teamSchema (set_fields u d)))) ∧
     (∀ k, set_fields u d !! k =
             match u !! k with Some v => Some v | None => d !! k end) ∧
     (∀ k v, set_fields u d !! k = Some v ->
             applyDefaults now teamSchema (set_fields u d) !! k = Some v)).
Proof.
  intros Hauth Hplain Hu. split; [|split].
  - intros k Hk. exact (castObject_lookup_out _ _ _ _ Hu Hk).
  - intros p Hp. exact (castObject_lookup _ _ _ _ (schema_NoDup CTeamMember) Hu Hp).
  - intros before d after Hs Hb Hd.
    split; [|split; [apply set_fields_lookup|intros k v; apply applyDefaults_lookup_Some]].
    change (app (PUT_team id)) with (protect (put_team id)).
    rewrite (protect_next _ _ _ _ _ _ Hauth).
    unfold put_team. cbn [req_body].
    rewrite (cast_update_plain _ _ Hplain), Hu. cbn [fmap option_fmap option_map].
    rewrite Hs, (findOneAndUpdate_before _ _ _ _ _ _ _ (set_fields u d) _ Hb Hd eq_refl).
    reflexivity.
Qed.

Lemma castObject_no_field sch (obj : Body) :
  (∀ p, p ∈ sch -> obj !! path_name p = None) -> castObject sch obj = Some ∅.
Proof.
  induction sch as [|p rest IH]; intros Hnone; [reflexivity|].
  cbn [castObject]. rewrite IH by (intros; apply Hnone; set_solver).
  cbn [mbind option_bind]. rewrite (Hnone p) by set_solver. reflexivity.
Qed.

Lemma set_fields_empty (d : Doc) : set_fields ∅ d = d.
Proof. unfold set_fields. apply (left_id_L ∅ (∪)). Qed.

Lemma updateOne_empty q coll :
  updateOne q (fun d => Some (set_fields ∅ d)) coll = Some coll.
Proof.
  induction coll as [|d rest IH]; [reflexivity|]. cbn [updateOne].
  destruct (q d).
  - cbn [mbind option_bind]. rewrite set_fields_empty. reflexivity.
  - rewrite IH. reflexivity.
Qed.

(** X13: an update with plain field names none of which is a field of the
    schema (an empty body, or only unknown fields) is accepted and changes
    nothing: on properties the answer is [{success: true}] with the store as
    it was, on team members the store is as it was and the answer is the
    unchanged first member with the id (with the schema defaults filled in
    where it lacks them), or the 404 when none has it. *)
Theorem X13_update_without_schema_field id e now st req adm :
  verifyToken e now req = Next adm ->
  plain_object (req_body req) = true ->
  ((∀ p, p ∈ propertySchema -> req_body req !! path_name p = None) ->
     app (PUT_property id) e now st req = (st, res_json BSuccess)) ∧
  ((∀ p, p ∈ teamSchema -> req_body req !! path_name p = None) ->
     app (PUT_team id) e now st req =
       (st, match findOne (has_id id) (team st) with
            | Some d => res_json (BSuccessData (applyDefaults now teamSchema d))
            | None => NotFound_TeamMember
            end)).
Proof.
  intros Hauth Hplain. split; intros Hnone.
  - change (app (PUT_property id)) with (protect (put_property id)).
    rewrite (protect_next _ _ _ _ _ _ Hauth).
    unfold put_property, findOneAndUpdate. cbn [req_body].
    rewrite (cast_update_plain _ _ Hplain), (castObject_no_field _ _ Hnone).
    cbn [fmap option_fmap option_map]. rewrite updateOne_empty.
    cbn [mbind option_bind]. rewrite set_properties_same. reflexivity.
  - change (app (PUT_team id)) with (protect (put_team id)).
    rewrite (protect_next _ _ _ _ _ _ Hauth).
    unfold put_team, findOneAndUpdate. cbn [req_body].
    rewrite (cast_update_plain _ _ Hplain), (castObject_no_field _ _ Hnone).
    cbn [fmap option_fmap option_map]. rewrite updateOne_empty.
    cbn [mbind option_bind]. rewrite set_team_same.
    destruct (findOne (has_id id) (team st)) as [d|];
      cbn [mbind option_bind fmap option_fmap option_map]; [|reflexivity].
    rewrite set_fields_empty. reflexivity.
Qed.

(** ** Created records *)

Lemma castObject_castable sch (obj : Body) :
  NoDup (schema_names sch) ->
  (is_Some (castObject sch obj) ↔
   ∀ p v, p ∈ sch -> obj !! path_name p = Some v ->
          is_Some (cast (path_type p) v)).
Proof.
  intros Hnd. split; [|apply castObject_is_Some].
  intros [u Hu] p v Hp Hv.
  pose proof (castObject_lookup_in _ _ _ _ Hnd Hu Hp) as Hin.
  rewrite Hv in Hin. destruct Hin as (v' & -> & _). eauto.
Qed.

(** X14: what a create route stores for a body with plain field names.
    The stored (and returned) record has, on every path of the schema, the
    cast of the submitted value when the object handed to the model has the
    field, and otherwise the default of the path: for [createdAt] and
    [created_at] the clock reading taken while the record is built (on the
    contact and leads routes a later reading than the one the id was made
    from), the empty array for array paths, and no field at all for the other
    paths.  A submitted creation date therefore replaces the clock reading. *)
Theorem X14_created_record_fields c e now st req st' d :
  plain_object (req_body req) = true ->
  create_handler c e now st req = (st', res_json (BSuccessData d)) ->
  ∀ p, p ∈ schema_of c ->
    d !! path_name p =
      match create_object c now (req_body req) !! path_name p with
      | Some v => cast (path_type p) v
      | None => default_of (default_reading c now) p
      end.
Proof.
  intros Hplain [Hnew _]%(create_handler_plain _ _ _ _ _ _ _ Hplain) p Hp.
  destruct (create_object c now (req_body req) !! path_name p) as [v|] eqn:Hv.
  - destruct (plain_document_lookup_in _ _ _ _ _ _ (schema_NoDup c) Hnew Hp Hv)
      as (v' & -> & ->). reflexivity.
  - apply (plain_document_default _ _ _ _ _ (schema_NoDup c) Hnew Hp Hv).
Qed.

(** X15: a create with plain field names never looks at the stored
    records.  Its answer is the same for every store (an external id that is
    already taken is not rejected), and it is the 200 answer exactly when
    every submitted schema field can be cast to the type of its path;
    otherwise it is the 500 answer. *)
Theorem X15_create_ignores_the_store c e now st1 st2 req :
  plain_object (req_body req) = true ->
  (create_handler c e now st1 req).2 = (create_handler c e now st2 req).2 ∧
  (res_status (create_handler c e now st1 req).2 = 200 ↔
   ∀ p v, p ∈ schema_of c ->
          create_object c now (req_body req) !! path_name p = Some v ->
          is_Some (cast (path_type p) v)) ∧
  (res_status (create_handler c e now st1 req).2 = 200 ∨
   res_status (create_handler c e now st1 req).2 = 500).
Proof.
  intros Hplain. rewrite !create_handler_unfold.
  rewrite !new_document_plain by (apply create_object_plain, Hplain).
  rewrite <- (castObject_castable _ _ (schema_NoDup c)). unfold plain_document.
  destruct (castObject (schema_of c) _) as [u|]; cbn [fmap option_fmap option_map snd].
  - split; [reflexivity|]. split; [|left; reflexivity].
    split; [eauto|reflexivity].
  - split; [reflexivity|]. split; [|right; reflexivity].
    split; [discriminate|intros [? [=]]].
Qed.

Lemma created_has_id c e now st req st' d x :
  create_handler c e now st req = (st', res_json (BSuccessData d)) ->
  create_object c now (req_body req) !! "id" = Some (JStr x) ->
  has_id x d = true.
Proof.
  intros [Hnew _]%create_handler_success Hid.
  apply new_document_Some in Hnew as (d0 & Hplain & _ & Hsame).
  destruct (plain_document_lookup_in _ _ _ _ (plain "id" TString) _
              (schema_NoDup c) Hplain (id_path_in_schema c) Hid) as (v' & [= <-] & Hd).
  unfold has_id. rewrite (Hsame "id" (id_not_interpreted c)).
  cbn [path_name plain] in Hd. rewrite Hd. apply String.eqb_refl.
Qed.

(** X16: create, then look up.  After an authorized create of a property
    with the string id [x], the collection has one more record with that
    id; a lookup of [x] answers the new record when no property had the id
    before, and keeps answering the older record when one had. *)
Theorem X16_created_property_is_found x e now st req adm st' d e' now' req' :
  verifyToken e now req = Next adm ->
  req_body req !! "id" = Some (JStr x) ->
  app POST_properties e now st req = (st', res_json (BSuccessData d)) ->
  has_id x d = true ∧
  count_id x (properties st') = S (count_id x (properties st)) ∧
  (count_id x (properties st) = 0%nat ->
     app (GET_property x) e' now' st' req' = (st', res_json (BDoc d))) ∧
  (count_id x (properties st) ≠ 0%nat ->
     (app (GET_property x) e' now' st' req').2 =
     (app (GET_property x) e' now' st req').2).
Proof.
  intros Hauth Hid.
  change (app POST_properties) with (protect post_properties).
  rewrite (protect_next _ _ _ _ _ _ Hauth).
  change post_properties with (create_handler CProperty). intros Hrun.
  assert (Hd : has_id x d = true).
  { eapply created_has_id; [exact Hrun|]. exact Hid. }
  apply create_handler_success in Hrun as [_ Hcoll]. cbn [collection_of] in Hcoll.
  change (app (GET_property x)) with (get_property x). unfold get_property.
  rewrite Hcoll. split; [exact Hd|]. split; [|split].
  - rewrite count_id_app, count_id_singleton, Hd. lia.
  - intros Hz. rewrite (findOne_before _ _ _ [] Hz Hd). reflexivity.
  - intros Hc.
    destruct (findOne_split _ _ Hc) as (before & d0 & after & Hs & Hb & Hd0 & Hf).
    rewrite Hf, Hs, <- app_assoc.
    change ((d0 :: after) ++ [d]) with (d0 :: (after ++ [d])).
    rewrite (findOne_before _ _ _ _ Hb Hd0). reflexivity.
Qed.

(** X17: create, then list.  After a successful create on any collection
    the list handler of that collection answers with the records that were
    there and the new one, each exactly once: in insertion order with the new
    record last for properties and team members, newest creation date first
    for contacts and leads. *)
Theorem X17_created_record_is_listed c e now st req st' d e' now' req' :
  create_handler c e now st req = (st', res_json (BSuccessData d)) ->
  ∃ l, list_handler c e' now' st' req' = (st', res_json (BDocs l)) ∧
       l ≡ₚ collection_of c st ++ [d] ∧
       (public_create c = false -> l = collection_of c st ++ [d]) ∧
       (public_create c = true -> StronglySorted newer_first l).
Proof.
  intros [_ Hcoll]%create_handler_success.
  destruct c; cbn [list_handler collection_of public_create] in *;
    unfold get_properties, get_team, get_contact, get_leads; rewrite Hcoll.
  - eexists. split; [reflexivity|]. split; [reflexivity|]. split; [auto|discriminate].
  - eexists. split; [reflexivity|]. split; [reflexivity|]. split; [auto|discriminate].
  - eexists. split; [reflexivity|].
    destruct (sort_created_desc_spec (contacts st ++ [d])) as [Hp Hs].
    split; [exact Hp|]. split; [discriminate|auto].
  - eexists. split; [reflexivity|].
    destruct (sort_created_desc_spec (leads st ++ [d])) as [Hp Hs].
    split; [exact Hp|]. split; [discriminate|auto].
Qed.

Lemma public_create_id c e now st req st' d :
  public_create c = true ->
  create_handler c e now st req = (st', res_json (BSuccessData d)) ->
  d !! "id" = Some (JStr (toString now)).
Proof.
  intros Hpub [Hnew _]%create_handler_success.
  apply new_document_Some in Hnew as (d0 & Hplain & _ & Hsame).
  rewrite (Hsame "id" (id_not_interpreted c)).
  destruct (plain_document_lookup_in _ _ _ _ (plain "id" TString) (JStr (toString now))
              (schema_NoDup c) Hplain (id_path_in_schema c)) as (v' & [= <-] & Hd).
  - unfold create_object. rewrite Hpub. apply lookup_insert_eq.
  - exact Hd.
Qed.

(** X18: the ids of the public forms.  Two records stored by the contact
    or leads create route carry the same id exactly when they were created at
    the same clock reading (the same millisecond), whatever their bodies and
    whichever of the two routes stored them. *)
Theorem X18_public_ids_collide_iff_same_millisecond
    c1 c2 e1 e2 now1 now2 st1 st2 req1 req2 st1' st2' d1 d2 :
  public_create c1 = true -> public_create c2 = true ->
  create_handler c1 e1 now1 st1 req1 = (st1', res_json (BSuccessData d1)) ->
  create_handler c2 e2 now2 st2 req2 = (st2', res_json (BSuccessData d2)) ->
  (d1 !! "id" = d2 !! "id" ↔ now1 = now2).
Proof.
  intros Hp1 Hp2 H1 H2.
  rewrite (public_create_id _ _ _ _ _ _ _ Hp1 H1), (public_create_id _ _ _ _ _ _ _ Hp2 H2).
  split; [|intros ->; reflexivity].
  intros [= Heq]. unfold toString in Heq. exact (inj pretty _ _ Heq).
Qed.

(** ** Tokens over time *)

Lemma clockTimestamp_mono t t' : t ≤ t' -> clockTimestamp t ≤ clockTimestamp t'.
Proof. intros Hle. unfold clockTimestamp. apply Z.div_le_mono; lia. Qed.

(** X19: verification of any token, issued here or elsewhere, as time
    passes.  Once a verification fails with TokenExpiredError it fails so
    at every later time; two verifications within the same clock second give
    the same result; and a token accepted at two times is accepted, with the
    same payload, at every time between them. *)
Theorem X19_verification_over_time token secret t t' :
  (jwt_verify token secret t = inr TokenExpiredError -> t ≤ t' ->
     jwt_verify token secret t' = inr TokenExpiredError) ∧
  (clockTimestamp t = clockTimestamp t' ->
     jwt_verify token secret t = jwt_verify token secret t') ∧
  (∀ t2 p1 p2,
     jwt_verify token secret t = inl p1 -> jwt_verify token secret t2 = inl p2 ->
     t ≤ t' ≤ t2 -> jwt_verify token secret t' = inl p1).
Proof.
  unfold jwt_verify. split; [|split].
  - intros Hexp Hle%clockTimestamp_mono. revert Hexp.
    destruct (jws_open secret token) as [p|]; [|discriminate].
    destruct (jp_nbf p) as [nbf|], (jp_exp p) as [exp|];
      repeat match goal with
             | |- context [?a <? ?b] => destruct (Z.ltb_spec a b)
             | |- context [?a <=? ?b] => destruct (Z.leb_spec a b)
             end; try discriminate; try reflexivity; lia.
  - intros ->. reflexivity.
  - intros t2 p1 p2 H1 H2 [Hl%clockTimestamp_mono Hr%clockTimestamp_mono].
    revert H1 H2.
    destruct (jws_open secret token) as [p|]; [|discriminate].
    destruct (jp_nbf p) as [nbf|], (jp_exp p) as [exp|];
      repeat match goal with
             | |- context [?a <? ?b] => destruct (Z.ltb_spec a b)
             | |- context [?a <=? ?b] => destruct (Z.leb_spec a b)
             end; try discriminate; auto; lia.
Qed.

(** ** The authorization header *)

(** X20: which part of the authorization header is the token.  A header
    without a space, and a header whose first space is directly followed by
    another space, are answered 401 "No token provided"; of a header with
    three or more space-separated parts only the second is the token, the
    rest is ignored. *)
Theorem X20_token_is_the_second_segment e now body adm :
  (∀ hdr, has_char " " hdr = false ->
     verifyToken e now (mkRequest (Some hdr) body adm) = Halt Rejected_NoToken) ∧
  (∀ scheme rest, has_char " " scheme = false ->
     verifyToken e now (mkRequest (Some (scheme +:+ String " " (String " " rest))) body adm) =
       Halt Rejected_NoToken) ∧
  (∀ scheme value rest,
     has_char " " scheme = false -> has_char " " value = false ->
     extract_token
       (mkRequest (Some (scheme +:+ String " " (value +:+ String " " rest))) body adm) =
       Some value).
Proof.
  split; [|split].
  - intros hdr Hs. apply verifyToken_no_token. left.
    unfold extract_token. cbn [req_authorization mbind option_bind].
    rewrite (split_on_no_sep _ _ Hs). reflexivity.
  - intros scheme rest Hs. apply verifyToken_no_token. right.
    unfold extract_token. cbn [req_authorization mbind option_bind].
    rewrite (split_on_app _ _ _ Hs). cbn [split_on]. rewrite Ascii.eqb_refl.
    reflexivity.
  - intros scheme value rest Hs Hv.
    unfold extract_token. cbn [req_authorization mbind option_bind].
    rewrite (split_on_app _ _ _ Hs), (split_on_app _ _ _ Hv). reflexivity.
Qed.

(** X21: a login followed by an authorized request.  When the login issued
    a token (a string without a space, which opens to the payload it was
    signed for), a request to any route behind the middleware with the header
    [Bearer <token>] is answered by the route's handler, as if the route were
    open, at every time whose clock second is before the expiry 86400 seconds
    after the login second, and is answered 401 "Invalid token" with the
    store kept from the expiry on. *)
Theorem X21_login_then_bearer_request e now r t st body adm0 :
  let payload :=
    mkPayload (ADMIN_EMAIL e) "admin" (clockTimestamp now) None
              (Some (clockTimestamp now + expiresIn_24h)) in
  let token := jwt_sign (ADMIN_EMAIL e) "admin" (JWT_SECRET e) now in
  let req := mkRequest (Some ("Bearer " +:+ token)) body adm0 in
  jws_open (JWT_SECRET e) token = Some payload ->
  has_char " " token = false -> token ≠ EmptyString ->
  uses_verifyToken r = true ->
  (clockTimestamp t < clockTimestamp now + 86400 ->
     app r e t st req = handler_of r e t st req) ∧
  (clockTimestamp now + 86400 ≤ clockTimestamp t ->
     app r e t st req = (st, Rejected_InvalidToken)).
Proof.
  intros payload token req Hopen Hspace Hne Hr.
  assert (Htok : extract_token req = Some token).
  { apply (extract_token_scheme "Bearer" token body adm0); [reflexivity|exact Hspace]. }
  assert (Hverify : jwt_verify token (JWT_SECRET e) t =
            if decide (clockTimestamp t < clockTimestamp now + 86400)
            then inl payload else inr TokenExpiredError).
  { eapply jwt_verify_issued; eauto; reflexivity. }
  assert (Hgate : verifyToken e t req =
            if decide (clockTimestamp t < clockTimestamp now + 86400)
            then Next payload else Halt Rejected_InvalidToken).
  { destruct token as [|c tok] eqn:Heq; [contradiction|].
    rewrite (verifyToken_token _ _ _ _ _ Htok), Hverify.
    destruct (decide _); reflexivity. }
  rewrite app_unfold, Hr. split; intros Ht.
  - rewrite decide_True in Hgate by exact Ht.
    rewrite (protect_next _ _ _ _ _ _ Hgate). apply handler_reads_body. reflexivity.
  - rewrite decide_False in Hgate by lia. apply protect_halt, Hgate.
Qed.

(** ** Sequences of requests *)

Lemma post_team_store e now st req st' d :
  post_team e now st req = (st', res_json (BSuccessData d)) ->
  st' = set_team st (team st ++ [d]).
Proof.
  unfold post_team. destruct (new_document _ _ _ _); [|discriminate].
  intros [= <- <-]. reflexivity.
Qed.

(** X22: create, then delete.  When no team member carries the id [x], an
    authorized create of a member with id [x] followed by an authorized
    delete of [x] gives back the store as it was before the create. *)
Theorem X22_create_then_delete_restores x e now st req adm st' d now' req' adm' :
  verifyToken e now req = Next adm ->
  verifyToken e now' req' = Next adm' ->
  req_body req !! "id" = Some (JStr x) ->
  count_id x (team st) = 0%nat ->
  app POST_team e now st req = (st', res_json (BSuccessData d)) ->
  app (DELETE_team x) e now' st' req' = (st, res_json BSuccess).
Proof.
  intros Hauth Hauth' Hid Hz.
  change (app POST_team) with (protect post_team).
  change (app (DELETE_team x)) with (protect (delete_team x)).
  rewrite (protect_next _ _ _ _ _ _ Hauth), (protect_next _ _ _ _ _ _ Hauth').
  intros Hrun. pose proof (post_team_store _ _ _ _ _ _ Hrun) as ->.
  assert (Hd : has_id x d = true).
  { apply (created_has_id CTeamMember _ _ _ _ _ _ _ Hrun). exact Hid. }
  unfold delete_team. cbn [team set_team].
  rewrite (deleteOne_before _ _ _ [] Hz Hd), app_nil_r.
  destruct st; reflexivity.
Qed.

(** X23: update, then look up.  After an authorized property update with
    plain field names that does not set [id], a lookup of the id answers the
    updated record: the first property with the id, with the cast fields of
    the body written over it. *)
Theorem X23_updated_property_is_found id e now st req adm u before d after e' now' req' :
  verifyToken e now req = Next adm ->
  plain_object (req_body req) = true ->
  castObject propertySchema (req_body req) = Some u ->
  req_body req !! "id" = None ->
  properties st = before ++ d :: after ->
  count_id id before = 0%nat -> has_id id d = true ->
  app (GET_property id) e' now' (app (PUT_property id) e now st req).1 req' =
    ((app (PUT_property id) e now st req).1, res_json (BDoc (set_fields u d))) ∧
  (app (PUT_property id) e now st req).1 =
    set_properties st (before ++ set_fields u d :: after) ∧
  (∀ k, set_fields u d !! k =
          match u !! k with Some v => Some v | None => d !! k end).
Proof.
  intros Hauth Hplain Hu Hid Hs Hb Hd.
  assert (Hput : (app (PUT_property id) e now st req).1 =
                 set_properties st (before ++ set_fields u d :: after)).
  { change (app (PUT_property id)) with (protect (put_property id)).
    rewrite (protect_next _ _ _ _ _ _ Hauth).
    unfold put_property. cbn [req_body].
    rewrite (cast_update_plain _ _ Hplain), Hu. cbn [fmap option_fmap option_map].
    rewrite Hs, (findOneAndUpdate_before _ _ _ _ _ _ _ (set_fields u d) _ Hb Hd eq_refl).
    reflexivity. }
  split; [|split; [exact Hput|apply set_fields_lookup]]. rewrite Hput.
  change (app (GET_property id)) with (get_property id). unfold get_property.
  cbn [properties set_properties].
  assert (Hd' : has_id id (set_fields u d) = true).
  { unfold has_id in *. rewrite set_fields_lookup.
    pose proof (castObject_lookup _ _ _ (plain "id" TString)
                  (schema_NoDup CProperty) Hu (id_path_in_schema CProperty)) as Hin.
    cbn [path_name plain] in Hin. rewrite Hid in Hin. cbn in Hin. rewrite Hin.
    exact Hd. }
  rewrite (findOne_before _ _ _ _ Hb Hd'). reflexivity.
Qed.

End Coverage.

(** * The further properties on concrete requests *)

Section CoverageRuns.
Import Ref.
Existing Instance packages.

Lemma admin_token_accepted body :
  verifyToken env t0 (bearer admin_token body) = Next admin_payload.
Proof.
  unfold verifyToken.
  change (extract_token (bearer admin_token body))
    with (extract_token (bearer admin_token ∅)).
  vm_compute. reflexivity.
Qed.

Lemma X2_witness :
  read_only (GET_property "p1") = true ∧
  (app (GET_property "p1") env t0 one_property (anonymous ∅)).1 = one_property.
Proof.
  split; [reflexivity|].
  apply (X2_reads_keep_store (GET_property "p1") env t0 one_property (anonymous ∅)).
  reflexivity.
Defined.

Lemma X3_witness :
  collection_of CContact
    (app (DELETE_team "7") env t0 twins (bearer admin_token ∅)).1 = contacts twins.
Proof.
  apply (X3_routes_touch_own_collection (DELETE_team "7") CContact env t0 twins
           (bearer admin_token ∅)).
  discriminate.
Defined.

Lemma X4_witness :
  jwt_verify admin_token (JWT_SECRET env) (t0 + 86400000) = inr TokenExpiredError ∧
  app GET_leads env (t0 + 86400000) one_contact (bearer admin_token ∅) =
    (one_contact, Rejected_InvalidToken).
Proof.
  assert (Hexp : jwt_verify admin_token (JWT_SECRET env) (t0 + 86400000) =
                 inr TokenExpiredError) by (vm_compute; reflexivity).
  split; [exact Hexp|].
  apply (X4_invalid_token_rejected GET_leads env (t0 + 86400000) one_contact
           (bearer admin_token ∅) admin_token TokenExpiredError);
    [reflexivity|vm_compute; reflexivity|vm_compute; discriminate|exact Hexp].
Defined.

Lemma X5_witness :
  app_earlier (DELETE_team "7") = Some (delete_team "7") ∧
  app (DELETE_team "7") env t0 twins (bearer admin_token ∅) =
    delete_team "7" env t0 twins (bearer admin_token ∅) ∧
  delete_team "7" env t0 twins (anonymous ∅) = (only_carol, res_json BSuccess) ∧
  app (DELETE_team "7") env t0 twins (anonymous ∅) = (twins, Rejected_NoToken).
Proof.
  destruct (X5_present_server_agrees_with_earlier (DELETE_team "7") (delete_team "7")
              env t0 twins (bearer admin_token ∅) eq_refl) as (_ & Hnext & _).
  destruct (X5_present_server_agrees_with_earlier (DELETE_team "7") (delete_team "7")
              env t0 twins (anonymous ∅) eq_refl) as (_ & _ & Hhalt).
  split; [reflexivity|]. split; [|split].
  - apply (Hnext admin_payload), admin_token_accepted.
  - vm_compute. reflexivity.
  - apply Hhalt; reflexivity.
Defined.

Lemma X7_witness :
  env_ADMIN_PASSWORD_HASH unconfigured = None ∧
  (app POST_auth_login unconfigured t0 empty_store (anonymous admin_login) =
     (empty_store, Rejected_InvalidCredentials) ∨
   app POST_auth_login unconfigured t0 empty_store (anonymous admin_login) =
     (empty_store, Rejected_ConfigurationMissing)).
Proof.
  split; [reflexivity|].
  apply (X7_login_closed_without_hash unconfigured t0 empty_store
           (anonymous admin_login)).
  left. reflexivity.
Defined.

Lemma X8_witness :
  email_only !! "password" = None ∧
  app POST_auth_login env t0 empty_store (anonymous email_only) =
    (empty_store, res_status_json 500 (BError "Login failed")).
Proof.
  assert (Hnone : email_only !! "password" = None) by (vm_compute; reflexivity).
  split; [exact Hnone|].
  apply (X8_password_not_a_string env t0 empty_store (anonymous email_only)).
  - vm_compute. reflexivity.
  - vm_compute. discriminate.
  - intros pw. cbn [req_body anonymous]. rewrite Hnone. discriminate.
Defined.

Lemma X11_witness :
  app (DELETE_team "7") env t0 twins (bearer admin_token ∅) =
    (set_team twins ([] ++ [carol]), res_json BSuccess).
Proof.
  destruct (X11_delete_removes_first_match "7" env t0 twins (bearer admin_token ∅)
              admin_payload (admin_token_accepted ∅)) as (_ & Hfirst & _).
  apply (Hfirst [] alice [carol]); [reflexivity|reflexivity|vm_compute; reflexivity].
Defined.

Lemma X12_witness :
  plain_object rename = true ∧
  app (PUT_team "7") env t0 staff (bearer admin_token rename) =
    (set_team staff ([] ++ set_fields rename alice_stored :: [carol_stored]),
     res_json (BSuccessData
                 (applyDefaults t0 teamSchema (set_fields rename alice_stored)))) ∧
  set_fields rename alice_stored !! "name" = Some (JStr "Alicia") ∧
  set_fields rename alice_stored !! "role" = Some (JStr "Agent").
Proof.
  assert (Hplain : plain_object rename = true) by (vm_compute; reflexivity).
  split; [exact Hplain|].
  destruct (X12_team_update_is_partial "7" env t0 staff (bearer admin_token rename)
              admin_payload rename (admin_token_accepted rename) Hplain)
    as (_ & _ & Hput).
  { vm_compute. reflexivity. }
  destruct (Hput [] alice_stored [carol_stored]) as [Hrun _];
    [reflexivity|reflexivity|vm_compute; reflexivity|].
  split; [exact Hrun|]. split; vm_compute; reflexivity.
Defined.

Lemma no_team_field p : p ∈ teamSchema -> unknown_only !! path_name p = None.
Proof.
  unfold teamSchema. intros Hp.
  repeat (apply elem_of_cons in Hp as [-> | Hp]); try (vm_compute; reflexivity).
  inversion Hp.
Qed.

Lemma X13_witness :
  plain_object unknown_only = true ∧
  app (PUT_team "7") env t0 staff (bearer admin_token unknown_only) =
    (staff, res_json (BSuccessData alice_stored)).
Proof.
  assert (Hplain : plain_object unknown_only = true) by (vm_compute; reflexivity).
  split; [exact Hplain|].
  destruct (X13_update_without_schema_field "7" env t0 staff
              (bearer admin_token unknown_only) admin_payload
              (admin_token_accepted unknown_only) Hplain) as [_ Hteam].
  etransitivity; [exact (Hteam no_team_field)|]. vm_compute. reflexivity.
Defined.

Lemma X14_witness :
  plain_object bob = true ∧
  bob_stored !! "created_at" = Some (JDate (t0 + 2)) ∧
  bob_stored !! "name" = Some (JStr "Bob").
Proof.
  assert (Hplain : plain_object bob = true) by (vm_compute; reflexivity).
  assert (Hrun : create_handler CContact env t0 empty_store (anonymous bob) =
                 (mkStore [] [] [bob_stored] [], res_json (BSuccessData bob_stored))).
  { vm_compute. reflexivity. }
  split; [exact Hplain|]. split.
  - etransitivity.
    + apply (X14_created_record_fields CContact env t0 empty_store (anonymous bob) _ _
               Hplain Hrun (mkPath "created_at" TDate DefaultNow)).
      repeat first [apply list_elem_of_here | apply list_elem_of_further].
    + vm_compute. reflexivity.
  - etransitivity.
    + apply (X14_created_record_fields CContact env t0 empty_store (anonymous bob) _ _
               Hplain Hrun (plain "name" TString)).
      repeat first [apply list_elem_of_here | apply list_elem_of_further].
    + vm_compute. reflexivity.
Defined.

Lemma X15_witness :
  plain_object dave = true ∧
  (create_handler CTeamMember env t0 empty_store (anonymous dave)).2 =
  (create_handler CTeamMember env t0 twins (anonymous dave)).2.
Proof.
  assert (Hplain : plain_object dave = true) by (vm_compute; reflexivity).
  split; [exact Hplain|].
  apply (X15_create_ignores_the_store CTeamMember env t0 empty_store twins
           (anonymous dave) Hplain).
Defined.

Lemma X16_witness :
  app POST_properties env t0 empty_store (bearer admin_token villa) =
    (one_property, res_json (BSuccessData villa_stored)) ∧
  app (GET_property "p1") env (t0 + 5) one_property (anonymous ∅) =
    (one_property, res_json (BDoc villa_stored)).
Proof.
  assert (Hrun : app POST_properties env t0 empty_store (bearer admin_token villa) =
                 (one_property, res_json (BSuccessData villa_stored))).
  { vm_compute. reflexivity. }
  split; [exact Hrun|].
  destruct (X16_created_property_is_found "p1" env t0 empty_store
              (bearer admin_token villa) admin_payload one_property villa_stored
              env (t0 + 5) (anonymous ∅) (admin_token_accepted villa))
    as (_ & _ & Hnew & _); [vm_compute; reflexivity|exact Hrun|].
  apply Hnew. reflexivity.
Defined.

Lemma X17_witness :
  ∃ l, list_handler CContact env (t0 + 5) (mkStore [] [] [ann_stored; bob_stored] [])
         (anonymous ∅) =
         (mkStore [] [] [ann_stored; bob_stored] [], res_json (BDocs l)) ∧
       l ≡ₚ [ann_stored; bob_stored].
Proof.
  destruct (X17_created_record_is_listed CContact env t0 one_contact (anonymous bob)
              (mkStore [] [] [ann_stored; bob_stored] []) bob_stored
              env (t0 + 5) (anonymous ∅)) as (l & Hlist & Hperm & _).
  - vm_compute. reflexivity.
  - exists l. split; [exact Hlist|exact Hperm].
Defined.

Lemma X18_witness :
  (list_to_map [("id", JStr "1700000000124"); ("created_at", JDate 1700000000126)]
     : Doc) !! "id" = bob_stored !! "id" ↔ t0 + 1 = t0.
Proof.
  apply (X18_public_ids_collide_iff_same_millisecond CLead CContact env env
           (t0 + 1) t0 empty_store empty_store (anonymous ∅) (anonymous bob)
           (mkStore [] [] [] [list_to_map [("id", JStr "1700000000124");
                                          ("created_at", JDate 1700000000126)]])
           (mkStore [] [] [bob_stored] []));
    [reflexivity|reflexivity|vm_compute; reflexivity|vm_compute; reflexivity].
Defined.

Lemma X21_witness :
  app (DELETE_team "7") env (t0 + 86399000) twins (bearer admin_token ∅) =
    delete_team "7" env (t0 + 86399000) twins (bearer admin_token ∅) ∧
  app (DELETE_team "7") env (t0 + 86400000) twins (bearer admin_token ∅) =
    (twins, Rejected_InvalidToken).
Proof.
  destruct (X21_login_then_bearer_request env t0 (DELETE_team "7") (t0 + 86399000)
              twins ∅ None) as [Hin _];
    [vm_compute; reflexivity|vm_compute; reflexivity|vm_compute; discriminate
    |reflexivity|].
  destruct (X21_login_then_bearer_request env t0 (DELETE_team "7") (t0 + 86400000)
              twins ∅ None) as [_ Hout];
    [vm_compute; reflexivity|vm_compute; reflexivity|vm_compute; discriminate
    |reflexivity|].
  split.
  - apply Hin. vm_compute. reflexivity.
  - apply Hout. vm_compute. discriminate.
Defined.

Lemma X22_witness :
  app POST_team env t0 twins (bearer admin_token dave) =
    (mkStore [] [alice; carol; dave_stored] [] [], res_json (BSuccessData dave_stored)) ∧
  app (DELETE_team "9") env (t0 + 5)
      (mkStore [] [alice; carol; dave_stored] [] []) (bearer admin_token ∅) =
    (twins, res_json BSuccess).
Proof.
  assert (Hrun : app POST_team env t0 twins (bearer admin_token dave) =
    (mkStore [] [alice; carol; dave_stored] [] [], res_json (BSuccessData dave_stored))).
  { vm_compute. reflexivity. }
  split; [exact Hrun|].
  apply (X22_create_then_delete_restores "9" env t0 twins (bearer admin_token dave)
           admin_payload _ dave_stored (t0 + 5) (bearer admin_token ∅) admin_payload);
    [apply admin_token_accepted|vm_compute; reflexivity|vm_compute; reflexivity
    |vm_compute; reflexivity|exact Hrun].
Defined.

Lemma X23_witness :
  plain_object retitle = true ∧
  app (GET_property "p1") env (t0 + 5)
      (app (PUT_property "p1") env t0 one_property (bearer admin_token retitle)).1
      (anonymous ∅) =
    ((app (PUT_property "p1") env t0 one_property (bearer admin_token retitle)).1,
     res_json (BDoc (set_fields retitle villa_stored))) ∧
  set_fields retitle villa_stored !! "title" = Some (JStr "Villa Two").
Proof.
  assert (Hplain : plain_object retitle = true) by (vm_compute; reflexivity).
  split; [exact Hplain|]. split; [|vm_compute; reflexivity].
  apply (X23_updated_property_is_found "p1" env t0 one_property
           (bearer admin_token retitle) admin_payload retitle [] villa_stored []
           env (t0 + 5) (anonymous ∅));
    [apply admin_token_accepted|exact Hplain|vm_compute; reflexivity
    |vm_compute; reflexivity|reflexivity|reflexivity|vm_compute; reflexivity].
Defined.

End CoverageRuns.
